(** * The school export pipeline of export.py

    A shallow embedding of [export.py]: the duration parser, the two
    rate-limited clients (ResRobot and Ednia), the stop resolution strategy
    and the export loop, followed by the properties of the design document
    that are decided by that code.

    Conventions of the embedding.
    - Python [str] is [string]; case mapping and digit classes are the ASCII
      ones.  Python [int] is [Z]; JSON numbers and clock readings are [Q].
    - A decoded JSON object is a record whose members are options ([None]:
      the key is missing), typed as the annotations of the source and the
      calls on the values require ([str] for what is passed as a [str],
      lists for what is iterated).  Values of other JSON types, [null]
      among them, are outside the embedding.  Objects that the code tests
      for truthiness also record whether they carry members the code never
      reads.
    - The outside world (clock, [time.sleep], the two HTTP services) is an
      arbitrary state machine [W]; every request is recorded in a trace
      with its reply.  A request is identified by its endpoint and
      parameters, from which the source formats the URL.
    - Exceptions are explicit: a computation returns a value or raises, and
      [try_except] is the only place where a raise is caught.
    - Progress lines on standard output and the writing of the file are not
      modelled; the diagnostics on standard error are, and the result of a
      run is the list of rows handed to the writer. *)

From Stdlib Require Import ZArith QArith Lqa List String Ascii Lia Bool.
From stdpp Require Import base option list strings gmap.

Local Open Scope Z_scope.
Local Open Scope string_scope.
Local Open Scope list_scope.

(** ** Strings *)

(** [needle in hay] on Python strings. *)
Fixpoint contains (needle hay : string) : bool :=
  String.prefix needle hay ||
  match hay with
  | EmptyString => false
  | String _ hay' => contains needle hay'
  end.

Definition lower_ascii (c : ascii) : ascii :=
  let n := N_of_ascii c in
  if ((65 <=? n) && (n <=? 90))%N then ascii_of_N (n + 32) else c.

(** [s.lower()]. *)
Fixpoint lower (s : string) : string :=
  match s with
  | EmptyString => EmptyString
  | String c s' => String (lower_ascii c) (lower s')
  end.

(** The class [\d] of the regular expression. *)
Definition is_digit (c : ascii) : bool :=
  let n := N_of_ascii c in ((48 <=? n) && (n <=? 57))%N.

Definition digit_value (c : ascii) : Z := Z.of_N (N_of_ascii c) - 48.

(** [int(ds)] on a string of decimal digits, most significant first. *)
Fixpoint int_of_digits_from (acc : Z) (ds : string) : Z :=
  match ds with
  | EmptyString => acc
  | String c ds' => int_of_digits_from (10 * acc + digit_value c) ds'
  end.

Definition int_of_digits (ds : string) : Z := int_of_digits_from 0 ds.

(** The greedy [\d*]: the longest prefix of digits and what follows it. *)
Fixpoint span_digits (s : string) : string * string :=
  match s with
  | EmptyString => (EmptyString, EmptyString)
  | String c s' =>
      if is_digit c
      then let '(ds, rest) := span_digits s' in (String c ds, rest)
      else (EmptyString, s)
  end.

(** [s] without the prefix [p], when [s] starts with [p]. *)
Fixpoint strip_prefix (p s : string) : option string :=
  match p, s with
  | EmptyString, _ => Some s
  | String a p', String b s' =>
      if Ascii.eqb a b then strip_prefix p' s' else None
  | String _ _, EmptyString => None
  end.

(** ** parse_duration *)

(** One optional group [(?:(\d+)X)?] of the pattern, tried at the start of
    [s]: the digits captured and the rest of the input when the group
    matches.  [\d+] is greedy and backtracking over it cannot help: a shorter
    run of digits is followed by a digit, never by the unit letter. *)
Definition unit_group (unit : ascii) (s : string) : option (string * string) :=
  let '(ds, rest) := span_digits s in
  match ds, rest with
  | String _ _, String c rest' =>
      if Ascii.eqb c unit then Some (ds, rest') else None
  | _, _ => None
  end.

(** [re.match(r"PT(?:(\d+)H)?(?:(\d+)M)?", duration)]: the two captured
    groups, [None] for a group that did not take part in the match.  The
    pattern is anchored at the start only. *)
Definition match_duration (duration : string)
  : option (option string * option string) :=
  match strip_prefix "PT" duration with
  | None => None
  | Some after_pt =>
      let '(hours, after_h) :=
        match unit_group "H" after_pt with
        | Some (ds, rest) => (Some ds, rest)
        | None => (None, after_pt)
        end in
      let minutes :=
        match unit_group "M" after_h with
        | Some (ds, _) => Some ds
        | None => None
        end in
      Some (hours, minutes)
  end.

(** [parse_duration(duration)]; the argument is [None] when the caller found
    no duration member. *)
Definition parse_duration (duration : option string) : option Z :=
  match duration with
  | None => None
  | Some EmptyString => None
  | Some d =>
      match match_duration d with
      | None => None
      | Some (g1, g2) =>
          let hours := from_option int_of_digits 0 g1 in
          let minutes := from_option int_of_digits 0 g2 in
          Some (hours * 60 + minutes)
      end
  end.

(** ** Data model: the JSON objects the program reads *)

Definition present {A} (o : option A) : bool :=
  match o with Some _ => true | None => false end.

(** A [StopLocation] object.  [others]: the object has members besides
    [name] and [extId] (it is then non-empty whatever these two are). *)
Module Stop.
Record t := mk { name : option string; extId : option string; others : bool }.
(** The empty object [{}]. *)
Definition empty : t := mk None None false.
(** Truth value of the object: a dict is true when it is not empty. *)
Definition truthy (s : t) : bool := present (name s) || present (extId s) || others s.
End Stop.

(** An entry of [stopLocationOrCoordLocation]: a stop, or something else
    (a coordinate location) without a [StopLocation] member. *)
Module Location.
Record t := mk { StopLocation : option Stop.t }.
End Location.

Module TripItem.
Record t := mk { duration : option string }.
End TripItem.

Module EducationStats.
Record t := mk { averageGrade : option Q; flowthroughRate : option Q }.
Definition empty : t := mk None None.
End EducationStats.

Module StudyPath.
Record t := mk {
  name : option string;
  compareNumber : option Q;
  min : option Q;
  median : option Q;
  admitted : option Q }.
End StudyPath.

Module ProgramPage.
Record t := mk {
  educationStats : option EducationStats.t;
  femaleRatio : option Q;
  studyPaths : option (list StudyPath.t);
  others : bool }.
Definition truthy (p : t) : bool :=
  present (educationStats p) || present (femaleRatio p) ||
  present (studyPaths p) || others p.
End ProgramPage.

Module School.
Record t := mk {
  id : option string;
  name : option string;
  location : option string;
  municipality : option string;
  programs : option (list string) }.
End School.

(** A decoded response body: a JSON object with the members the program
    looks up, each of them optional. *)
Module Document.
Record t := mk {
  stopLocationOrCoordLocation : option (list Location.t);
  Trip : option (list TripItem.t);
  result : option (list School.t);
  programPage : option ProgramPage.t }.
End Document.

(** The JSON body posted to the recommend endpoint. *)
Module Filter.
Record t := mk {
  projection : string;
  municipality : string;
  query : string;
  programs : list string;
  admissionPointsMin : Z;
  admissionPointsMax : Z }.
End Filter.

Module RecommendData.
Record t := mk { offset : Z; take : Z; filter : Filter.t }.
End RecommendData.

(** One line of the exported table.  An absent number is written as the
    empty field. *)
Module Row.
Record t := mk {
  school_name : string;
  school_location : string;
  program : string;
  averageGrade : option Q;
  flowthroughRate : option Q;
  femaleRatio : option Q;
  studyPath_name : string;
  compareNumber : option Q;
  min : option Q;
  median : option Q;
  admitted : option Q;
  travel_time_minutes : option Z }.
End Row.

Module Config.
Record t := mk {
  resrobot_api_key : string;
  origin_name : string;
  output_file : string;
  school_limit : option Z;
  delay_ednia : Q;
  delay_resrobot : Q }.
(** The configuration [main] builds: the two delays keep their defaults. *)
Definition of_args (api_key origin output : string) (limit : option Z) : t :=
  mk api_key origin output limit (1 # 10) (3 # 2).
End Config.

Module ResRobotClient.
Record t := mk { api_key : string; delay : Q; last_request : Q }.
(** [__init__] *)
Definition init (api_key : string) (delay : Q) : t := mk api_key delay 0.
End ResRobotClient.

Module EdniaClient.
Record t := mk { delay : Q; last_request : Q }.
Definition init (delay : Q) : t := mk delay 0.
End EdniaClient.

(** ** The outside world *)

(** The addresses the program requests, by endpoint and parameters (the
    text of the URL is a function of them).  [None] is a missing [extId],
    formatted into the address as it is. *)
Inductive url :=
| LocationNameUrl (input accessId : string)
| TripUrl (originId destId : option string) (accessId : string)
| RecommendUrl
| GetProgramPageUrl (highSchoolId programCode municipality : string).

(** What [http_get] and [http_post] do: raise (network error, status,
    undecodable body) or return the decoded body. *)
Inductive reply :=
| Failure (reason : string)
| Body (data : Document.t).

Class Upstream (W : Type) := {
  clock : W -> Q * W;                   (* time.time() *)
  sleep : Q -> W -> W;                  (* time.sleep(seconds) *)
  get : url -> W -> reply * W;          (* urlopen of a GET request *)
  post : url -> RecommendData.t -> W -> reply * W }.
Global Hint Mode Upstream ! : typeclass_instances.

(** ** Exceptions *)

Inductive exn :=
| SystemExit (code : Z)
| KeyError (key : string)
| RequestError (reason : string).

(** [except Exception] catches everything but [SystemExit]. *)
Definition is_Exception (e : exn) : bool :=
  match e with SystemExit _ => false | _ => true end.

(** [str(e)] as formatted into the warnings. *)
Definition exn_text (e : exn) : string :=
  match e with
  | SystemExit _ => ""
  | KeyError key => "'" +:+ key +:+ "'"
  | RequestError reason => reason
  end.

Inductive outcome (A : Type) :=
| Ret (a : A)
| Raise (e : exn).
Arguments Ret {A} a.
Arguments Raise {A} e.

(** ** Trace *)

(** What a run does to the outside: the requests, each with its reply.
    Two marks are added to the trace by the embedding, not by the program:
    [Resolving id] where the loop calls [find_school_stop] for the school
    [id], and [Travelling id] where it calls [get_travel_time] for it; they
    tell on whose behalf the requests that follow are made. *)
Inductive event :=
| Get (u : url) (r : reply)
| Post (u : url) (data : RecommendData.t) (r : reply)
| Resolving (school_id : string)
| Travelling (school_id : string).

(** ** The monad of the program: state and exceptions *)

Definition M (S A : Type) : Type := S -> outcome A * S.

Definition ret {S A} (a : A) : M S A := fun st => (Ret a, st).

Definition raise {S A} (e : exn) : M S A := fun st => (Raise e, st).

Definition bind {S A B} (m : M S A) (k : A -> M S B) : M S B :=
  fun st =>
    match m st with
    | (Ret a, st') => k a st'
    | (Raise e, st') => (Raise e, st')
    end.

Declare Scope prog_scope.
Delimit Scope prog_scope with prog.
Notation "x <- c1 ;; c2" := (bind c1 (fun x => c2))
  (at level 100, c1 at next level, c2 at level 200, right associativity)
  : prog_scope.
Notation "c1 ;; c2" := (bind c1 (fun _ => c2))
  (at level 100, c2 at level 200, right associativity) : prog_scope.
Local Open Scope prog_scope.

Definition gets {S A} (f : S -> A) : M S A := fun st => (Ret (f st), st).

(** [try: body except Exception as e: handler(e)] *)
Definition try_except {S A} (body : M S A) (handler : exn -> M S A) : M S A :=
  fun st =>
    match body st with
    | (Ret a, st') => (Ret a, st')
    | (Raise e, st') => if is_Exception e then handler e st' else (Raise e, st')
    end.

(** [d[key]] on an object whose member [key] is [o]. *)
Definition subscript {S A} (key : string) (o : option A) : M S A :=
  match o with
  | Some a => ret a
  | None => raise (KeyError key)
  end.

(** [for x in xs: acc = body(x, acc)] *)
Fixpoint for_each {S A B} (xs : list A) (body : A -> B -> M S B) (acc : B)
  : M S B :=
  match xs with
  | [] => ret acc
  | x :: xs' => acc' <- body x acc ;; for_each xs' body acc'
  end.

(** ** Truth values *)

(** Truth value of [None] or an object. *)
Definition truth {A} (truthy : A -> bool) (o : option A) : bool :=
  match o with
  | Some a => truthy a
  | None => false
  end.

Definition nonempty (s : string) : bool :=
  match s with
  | EmptyString => false
  | String _ _ => true
  end.

(** [xs[:n]] *)
Definition slice_to {A} (n : Z) (xs : list A) : list A :=
  if (0 <=? n)%Z then firstn (Z.to_nat n) xs
  else firstn (Z.to_nat (Z.of_nat (length xs) + n)) xs.

(** ** Stop selection (the body of [lookup_stop] after the request) *)

(** The loop over the candidates: the first [StopLocation] whose name has
    Stockholm in it. *)
Fixpoint first_stockholm (locations : list Location.t) : option Stop.t :=
  match locations with
  | [] => None
  | loc :: rest =>
      let stop := default Stop.empty (Location.StopLocation loc) in
      let name := default "" (Stop.name stop) in
      if contains "Stockholm" name || contains "stockholm" (lower name)
      then Some stop
      else first_stockholm rest
  end.

Definition select_stop (locations : list Location.t) : option Stop.t :=
  match first_stockholm locations with
  | Some stop => Some stop
  | None =>
      match locations with
      | loc0 :: _ => Location.StopLocation loc0
      | [] => None
      end
  end.

(** ** Rows *)

Definition make_row (school_name school_location program : string)
    (education_stats : EducationStats.t) (female_ratio : option Q)
    (travel_time : option Z) (study_path : StudyPath.t) : Row.t :=
  Row.mk school_name school_location program
    (EducationStats.averageGrade education_stats)
    (EducationStats.flowthroughRate education_stats)
    female_ratio
    (default "" (StudyPath.name study_path))
    (StudyPath.compareNumber study_path)
    (StudyPath.min study_path)
    (StudyPath.median study_path)
    (StudyPath.admitted study_path)
    travel_time.

Section Pipeline.
Context {W : Type} `{!Upstream W}.

(** *** Rate limiting *)

(** The body the two [_rate_limit] methods share: from the interval and the
    [last_request] of the client, the new [last_request] and the world
    after the two clock readings and the sleep between them, if any. *)
Definition throttle (delay last_request : Q) (w : W) : Q * W :=
  let '(t, w1) := clock w in
  let elapsed := (t - last_request)%Q in
  let w2 := if Qlt_le_dec elapsed delay then sleep (delay - elapsed)%Q w1 else w1 in
  clock w2.

Record state := mkState {
  world : W;
  resrobot : ResRobotClient.t;
  ednia : EdniaClient.t;
  trace : list event;
  stderr : list string }.

Definition emit (e : event) : M state unit :=
  fun st => (Ret tt, mkState (world st) (resrobot st) (ednia st)
                             (trace st ++ [e]) (stderr st)).

(** [print(line, file=sys.stderr)] *)
Definition eprint (line : string) : M state unit :=
  fun st => (Ret tt, mkState (world st) (resrobot st) (ednia st)
                             (trace st) (stderr st ++ [line])).

(** [http_get(url)] *)
Definition http_get (u : url) : M state Document.t :=
  fun st =>
    let '(r, w') := get u (world st) in
    let st' := mkState w' (resrobot st) (ednia st)
                       (trace st ++ [Get u r]) (stderr st) in
    match r with
    | Failure reason => (Raise (RequestError reason), st')
    | Body data => (Ret data, st')
    end.

(** [http_post(url, data)] *)
Definition http_post (u : url) (data : RecommendData.t) : M state Document.t :=
  fun st =>
    let '(r, w') := post u data (world st) in
    let st' := mkState w' (resrobot st) (ednia st)
                       (trace st ++ [Post u data r]) (stderr st) in
    match r with
    | Failure reason => (Raise (RequestError reason), st')
    | Body body => (Ret body, st')
    end.

(** *** ResRobotClient *)

Definition ResRobotClient_rate_limit : M state unit :=
  fun st =>
    let self := resrobot st in
    let '(t, w') := throttle (ResRobotClient.delay self)
                             (ResRobotClient.last_request self) (world st) in
    (Ret tt, mkState w'
               (ResRobotClient.mk (ResRobotClient.api_key self)
                                  (ResRobotClient.delay self) t)
               (ednia st) (trace st) (stderr st)).

Definition lookup_stop (query : string) : M state (option Stop.t) :=
  ResRobotClient_rate_limit ;;
  api_key <- gets (fun st => ResRobotClient.api_key (resrobot st)) ;;
  try_except
    (data <- http_get (LocationNameUrl query api_key) ;;
     let locations := default [] (Document.stopLocationOrCoordLocation data) in
     ret (select_stop locations))
    (fun e =>
       eprint ("  Warning: Stop lookup failed for '" +:+ query +:+ "': "
               +:+ exn_text e) ;;
       ret None).

Definition get_travel_time (origin_id dest_id : option string)
  : M state (option Z) :=
  ResRobotClient_rate_limit ;;
  api_key <- gets (fun st => ResRobotClient.api_key (resrobot st)) ;;
  try_except
    (data <- http_get (TripUrl origin_id dest_id api_key) ;;
     let trips := default [] (Document.Trip data) in
     match trips with
     | trip0 :: _ => ret (parse_duration (TripItem.duration trip0))
     | [] => ret None
     end)
    (fun e =>
       eprint ("  Warning: Trip lookup failed: " +:+ exn_text e) ;;
       ret None).

(** *** EdniaClient *)

Definition EdniaClient_rate_limit : M state unit :=
  fun st =>
    let self := ednia st in
    let '(t, w') := throttle (EdniaClient.delay self)
                             (EdniaClient.last_request self) (world st) in
    (Ret tt, mkState w' (resrobot st)
               (EdniaClient.mk (EdniaClient.delay self) t)
               (trace st) (stderr st)).

Definition get_schools (municipality : string) (limit : Z)
  : M state (list School.t) :=
  EdniaClient_rate_limit ;;
  let data :=
    RecommendData.mk 0 limit
      (Filter.mk "programs" municipality "" [] 0 340) in
  response <- http_post RecommendUrl data ;;
  ret (default [] (Document.result response)).

Definition get_program_page (school_id program_code municipality : string)
  : M state (option ProgramPage.t) :=
  EdniaClient_rate_limit ;;
  try_except
    (response <- http_get (GetProgramPageUrl school_id program_code municipality) ;;
     ret (Document.programPage response))
    (fun e =>
       eprint ("  Warning: Failed to fetch program page: " +:+ exn_text e) ;;
       ret None).

(** *** find_school_stop *)

Definition find_school_stop (school_name location : string)
  : M state (option Stop.t) :=
  stop <- lookup_stop school_name ;;
  if truth Stop.truthy stop then ret stop else
  stop <- lookup_stop (school_name +:+ " Stockholm") ;;
  if truth Stop.truthy stop then ret stop else
  if nonempty location then
    stop <- lookup_stop (location +:+ " Stockholm") ;;
    if truth Stop.truthy stop then ret stop else ret None
  else ret None.

(** *** export_schools *)

(** The body of the loop over the programs of a school; [rows] is the list
    being appended to. *)
Definition export_program (school_id school_name school_location municipality : string)
    (travel_time : option Z) (program : string) (rows : list Row.t)
  : M state (list Row.t) :=
  program_page <- get_program_page school_id program municipality ;;
  match program_page with
  | None => ret rows
  | Some page =>
      if negb (ProgramPage.truthy page) then ret rows else
      let education_stats :=
        default EducationStats.empty (ProgramPage.educationStats page) in
      let female_ratio := ProgramPage.femaleRatio page in
      let study_paths := default [] (ProgramPage.studyPaths page) in
      match study_paths with
      | [] => ret rows
      | _ :: _ =>
          ret (rows ++ List.map (make_row school_name school_location program
                                   education_stats female_ratio travel_time)
                                study_paths)
      end
  end.

(** The travel time of a school that is not in the cache yet: the cache
    with the school added. *)
Definition resolve_travel_time (origin_id : option string)
    (school_id school_name school_location : string)
    (travel_time_cache : gmap string (option Z))
  : M state (gmap string (option Z)) :=
  emit (Resolving school_id) ;;
  stop <- find_school_stop school_name school_location ;;
  match stop with
  | Some s =>
      if Stop.truthy s then
        let dest_id := Stop.extId s in
        emit (Travelling school_id) ;;
        travel_time <- get_travel_time origin_id dest_id ;;
        ret (<[school_id := travel_time]> travel_time_cache)
      else ret (<[school_id := None]> travel_time_cache)
  | None => ret (<[school_id := None]> travel_time_cache)
  end.

(** The body of the loop over the schools; the cache and the rows are the
    variables it updates. *)
Definition export_school (origin_id : option string) (school : School.t)
    (vars : gmap string (option Z) * list Row.t)
  : M state (gmap string (option Z) * list Row.t) :=
  let '(travel_time_cache, rows) := vars in
  school_id <- subscript "id" (School.id school) ;;
  school_name <- subscript "name" (School.name school) ;;
  let school_location := default "" (School.location school) in
  let municipality := default "stockholm" (School.municipality school) in
  let programs := default [] (School.programs school) in
  travel_time_cache <-
    match travel_time_cache !! school_id with
    | None => resolve_travel_time origin_id school_id school_name
                                  school_location travel_time_cache
    | Some _ => ret travel_time_cache
    end ;;
  travel_time <- subscript school_id (travel_time_cache !! school_id) ;;
  rows <- for_each programs
            (export_program school_id school_name school_location
                            municipality travel_time) rows ;;
  ret (travel_time_cache, rows).

(** [if config.school_limit: schools = schools[: config.school_limit]] *)
Definition limit_schools (school_limit : option Z) (schools : list School.t)
  : list School.t :=
  match school_limit with
  | None => schools
  | Some n => if (n =? 0)%Z then schools else slice_to n schools
  end.

(** Phase 1: resolve the origin stop; the result is [origin_id]. *)
Definition resolve_origin (config : Config.t) : M state (option string) :=
  origin_stop <- lookup_stop (Config.origin_name config) ;;
  if negb (truth Stop.truthy origin_stop) then
    eprint ("Error: Could not find origin stop '"
            +:+ Config.origin_name config +:+ "'") ;;
    raise (SystemExit 1)
  else
    ret (origin_stop ≫= Stop.extId).

(** Phase 2: fetch all schools. *)
Definition fetch_schools (config : Config.t) : M state (list School.t) :=
  schools <- get_schools "stockholm" 500 ;;
  ret (limit_schools (Config.school_limit config) schools).

(** Phase 3: the loop over the schools, from an empty cache and no rows. *)
Definition export_loop (origin_id : option string) (schools : list School.t)
  : M state (gmap string (option Z) * list Row.t) :=
  for_each schools (export_school origin_id) (∅, []).

(** Phases 1 to 3; the result is the list of rows handed to the writer. *)
Definition export_phases (config : Config.t) : M state (list Row.t) :=
  origin_id <- resolve_origin config ;;
  schools <- fetch_schools config ;;
  vars <- export_loop origin_id schools ;;
  ret (snd vars).

(** The state in which the clients have just been created. *)
Definition initial_state (config : Config.t) (w : W) : state :=
  mkState w
    (ResRobotClient.init (Config.resrobot_api_key config)
                         (Config.delay_resrobot config))
    (EdniaClient.init (Config.delay_ednia config))
    [] [].

Definition export_schools (config : Config.t) (w : W)
  : outcome (list Row.t) * state :=
  export_phases config (initial_state config w).

End Pipeline.

Arguments state W : clear implicits.

(** * Scripted worlds

    A world whose clock only moves when the program sleeps and whose
    services answer every request from a fixed table. *)

Module Script.
Record t := mk {
  now : Q;
  on_get : url -> reply;
  on_post : url -> RecommendData.t -> reply }.
End Script.

#[export] Instance script_upstream : Upstream Script.t := {
  clock w := (Script.now w, w);
  sleep seconds w :=
    Script.mk (Qred (Script.now w + seconds)) (Script.on_get w) (Script.on_post w);
  get u w := (Script.on_get w u, w);
  post u data w := (Script.on_post w u data, w) }.

(** A transport directory that knows one stop per query it is given in
    [stops] and one duration for every trip, and a school directory with
    the listing [schools] and the page [page] for every program. *)
Definition directory (stops : string -> option (list Location.t))
    (trip : option string) (schools : reply) (page : string -> string -> reply)
  : Script.t :=
  Script.mk 1800000000
    (fun u =>
       match u with
       | LocationNameUrl input _ =>
           match stops input with
           | Some locations =>
               Body (Document.mk (Some locations) None None None)
           | None => Failure "HTTP Error 500"
           end
       | TripUrl _ _ _ =>
           Body (Document.mk None (Some [TripItem.mk trip]) None None)
       | GetProgramPageUrl school_id program _ => page school_id program
       | RecommendUrl => Failure "HTTP Error 405"
       end)
    (fun _ _ => schools).

(** * Vocabulary of the properties *)

(** ** Duration tokens *)

Fixpoint all_digits (s : string) : bool :=
  match s with
  | EmptyString => true
  | String c s' => is_digit c && all_digits s'
  end.








(** ** Stop selection *)



(** The candidates of a reply, and the stop [lookup_stop] makes of it. *)
Definition candidates (r : reply) : list Location.t :=
  match r with
  | Failure _ => []
  | Body data => default [] (Document.stopLocationOrCoordLocation data)
  end.

Definition stop_of_reply (r : reply) : option Stop.t := select_stop (candidates r).

(** ** Reading replies *)

(** The warning [lookup_stop] prints for a reply. *)
Definition lookup_warning (query : string) (r : reply) : list string :=
  match r with
  | Failure reason =>
      ["  Warning: Stop lookup failed for '" +:+ query +:+ "': " +:+ reason]
  | Body _ => []
  end.

(** What [get_travel_time] makes of a reply. *)
Definition minutes_of_reply (r : reply) : option Z :=
  match r with
  | Failure _ => None
  | Body data =>
      match default [] (Document.Trip data) with
      | trip0 :: _ => parse_duration (TripItem.duration trip0)
      | [] => None
      end
  end.

Definition trip_warning (r : reply) : list string :=
  match r with
  | Failure reason => ["  Warning: Trip lookup failed: " +:+ reason]
  | Body _ => []
  end.

(** What [get_program_page] makes of a reply. *)
Definition page_of_reply (r : reply) : option ProgramPage.t :=
  match r with
  | Failure _ => None
  | Body data => Document.programPage data
  end.

Definition page_warning (r : reply) : list string :=
  match r with
  | Failure reason => ["  Warning: Failed to fetch program page: " +:+ reason]
  | Body _ => []
  end.

(** The study paths of a program: those of its page, none when the page
    was not obtained or lists none. *)
Definition study_paths_of (page : option ProgramPage.t) : list StudyPath.t :=
  match page with
  | Some p => default [] (ProgramPage.studyPaths p)
  | None => []
  end.

(** The body [get_schools] posts. *)
Definition recommend_data (municipality : string) (limit : Z) : RecommendData.t :=
  RecommendData.mk 0 limit (Filter.mk "programs" municipality "" [] 0 340).

(** What [get_schools] makes of a reply. *)
Definition schools_of_reply (r : reply) : outcome (list School.t) :=
  match r with
  | Failure reason => Raise (RequestError reason)
  | Body data => Ret (default [] (Document.result data))
  end.

(** ** A small run: one origin, two listed schools

    The origin "T-Centralen" resolves to a stop of Stockholm that is not
    the first candidate.  The query for the first school is answered with a
    coordinate location followed by a stop outside Stockholm; the query for
    it with " Stockholm" appended fails; the query for its district finds
    a stop.  Two schools are listed under the same id; the program "NA" has
    two study paths, "SA" has a page without study paths, every other page
    fails to load. *)
Module Demo.

Definition config : Config.t :=
  Config.of_args "KEY" "T-Centralen" "schools.csv" None.

Definition centralen : Stop.t :=
  Stop.mk (Some "T-Centralen T-bana (Stockholm kn)") (Some "740020749") true.

Definition odenplan : Stop.t :=
  Stop.mk (Some "Odenplan T-bana") (Some "740021665") true.

Definition fridhemsplan : Stop.t :=
  Stop.mk (Some "Fridhemsplan T-bana") (Some "740021663") true.

Definition stops (input : string) : option (list Location.t) :=
  if String.eqb input "T-Centralen" then
    Some [Location.mk (Some odenplan); Location.mk (Some centralen)]
  else if String.eqb input "Kungsholmens gymnasium" then
    Some [Location.mk None; Location.mk (Some odenplan)]
  else if String.eqb input "Kungsholmens gymnasium Stockholm" then None
  else if String.eqb input "Kungsholmen Stockholm" then
    Some [Location.mk (Some fridhemsplan)]
  else Some [].

Definition path (name : string) : StudyPath.t :=
  StudyPath.mk (Some name) (Some (3 # 2)%Q) None (Some (250 # 1)%Q) (Some (30 # 1)%Q).

Definition page (school_id program : string) : reply :=
  if String.eqb program "NA" then
    Body (Document.mk None None None
            (Some (ProgramPage.mk None None
                     (Some [path "NANAT"; path "NASAM"]) false)))
  else if String.eqb program "SA" then
    Body (Document.mk None None None
            (Some (ProgramPage.mk (Some EducationStats.empty) None (Some []) true)))
  else Failure "timed out".

Definition kungsholmen : School.t :=
  School.mk (Some "s1") (Some "Kungsholmens gymnasium") (Some "Kungsholmen")
            None (Some ["NA"; "SA"; "TE"]).

Definition kungsholmen_again : School.t :=
  School.mk (Some "s1") (Some "Kungsholmens gymnasium") None None (Some ["NA"]).

Definition listing : reply :=
  Body (Document.mk None None (Some [kungsholmen; kungsholmen_again]) None).

Definition world : Script.t := directory stops (Some "PT1H5M") listing page.

End Demo.

(** ** Stop resolution *)

(** The query variants of [find_school_stop], in order; the third only for
    a district name that is given. *)
Definition variants (school_name location : string) : list string :=
  [school_name; school_name +:+ " Stockholm"] ++
  (if nonempty location then [location +:+ " Stockholm"] else []).

(** The stop searches that ask the queries [asked] and get the replies
    paired with them. *)
Definition lookup_events (accessId : string) (asked : list (string * reply))
  : list event :=
  List.map (fun qr => Get (LocationNameUrl (fst qr) accessId) (snd qr)) asked.

(** A reply makes a variant succeed when the stop selected from it is
    true. *)
Definition succeeds (r : reply) : bool := truth Stop.truthy (stop_of_reply r).

(** ** Rate limiting *)

Section Limiter.
Context {W : Type} `{!Upstream W}.

(** What the limiter relies on: a clock read twice does not go back, and a
    clock read before and after a sleep has advanced by the time slept. *)
Definition clock_steady : Prop :=
  forall w : W, (fst (clock w) <= fst (clock (snd (clock w))))%Q.

Definition sleep_lasts : Prop :=
  forall (seconds : Q) (w : W),
    (fst (clock w) + seconds <= fst (clock (sleep seconds (snd (clock w)))))%Q.

(** The times at which a limiter of interval [delay] permits a sequence of
    calls, one call for every element of [between]: the element is what the
    world goes through after the call is permitted and before the next call
    arrives (the request itself, and anything else). *)
Fixpoint permitted_times (delay last_request : Q) (w : W)
    (between : list (W -> W)) : list Q :=
  match between with
  | [] => []
  | f :: rest =>
      let '(t, w') := throttle delay last_request w in
      t :: permitted_times delay t (f w') rest
  end.

End Limiter.

(** ** Rows and page fetches *)

(** The rows a program contributes: one for every study path of its page,
    none without a page. *)
Definition rows_of_page (school_name school_location program : string)
    (travel_time : option Z) (page : option ProgramPage.t) : list Row.t :=
  match page with
  | Some p =>
      List.map (make_row school_name school_location program
                  (default EducationStats.empty (ProgramPage.educationStats p))
                  (ProgramPage.femaleRatio p) travel_time)
               (default [] (ProgramPage.studyPaths p))
  | None => []
  end.

(** The page fetches of a school for the programs paired with the replies
    they get. *)
Definition page_events (school_id municipality : string)
    (fetched : list (string * reply)) : list event :=
  List.map (fun pr => Get (GetProgramPageUrl school_id (fst pr) municipality)
                          (snd pr)) fetched.

(** The number of rows owed for an event: for a page fetch, the number of
    study paths of the page obtained. *)
Definition rows_due (e : event) : nat :=
  match e with
  | Get (GetProgramPageUrl _ _ _) r => length (study_paths_of (page_of_reply r))
  | _ => 0%nat
  end.

Fixpoint rows_owed (events : list event) : nat :=
  match events with
  | [] => 0%nat
  | e :: rest => (rows_due e + rows_owed rest)%nat
  end.

(** The page fetches of a trace, in order: school id, program code and
    municipality asked for. *)
Fixpoint page_requests (events : list event) : list (string * string * string) :=
  match events with
  | [] => []
  | Get (GetProgramPageUrl school_id program municipality) _ :: rest =>
      (school_id, program, municipality) :: page_requests rest
  | _ :: rest => page_requests rest
  end.

(** The (school, program) pairs of a school record, as they are asked
    for. *)
Definition school_requests (school : School.t) : list (string * string * string) :=
  match School.id school with
  | Some school_id =>
      List.map (fun program =>
                  (school_id, program,
                   default "stockholm" (School.municipality school)))
               (default [] (School.programs school))
  | None => []
  end.

(** The listings a trace has received. *)
Fixpoint listings (events : list event) : list (outcome (list School.t)) :=
  match events with
  | [] => []
  | Post _ _ r :: rest => schools_of_reply r :: listings rest
  | _ :: rest => listings rest
  end.

(** ** Counting what is done for a school *)

Fixpoint count (p : event -> bool) (events : list event) : nat :=
  match events with
  | [] => 0%nat
  | e :: rest => ((if p e then 1 else 0) + count p rest)%nat
  end.

Definition is_resolving (e : event) : bool :=
  match e with Resolving _ => true | _ => false end.

Definition is_resolving_of (school_id : string) (e : event) : bool :=
  match e with Resolving id => String.eqb id school_id | _ => false end.

Definition is_travelling (e : event) : bool :=
  match e with Travelling _ => true | _ => false end.

Definition is_travelling_of (school_id : string) (e : event) : bool :=
  match e with Travelling id => String.eqb id school_id | _ => false end.

Definition is_stop_search (e : event) : bool :=
  match e with Get (LocationNameUrl _ _) _ => true | _ => false end.

Definition is_trip_search (e : event) : bool :=
  match e with Get (TripUrl _ _ _) _ => true | _ => false end.

(** The events of the travel-time step of a resolution that found [stop]. *)
Definition travel_events (school_id : string) (origin_id : option string)
    (accessId : string) (stop : option Stop.t) (r : reply) : list event :=
  match stop with
  | Some s => [Travelling school_id; Get (TripUrl origin_id (Stop.extId s) accessId) r]
  | None => []
  end.

(** The travel time stored for a resolution that found [stop]. *)
Definition travel_value (stop : option Stop.t) (r : reply) : option Z :=
  match stop with
  | Some _ => minutes_of_reply r
  | None => None
  end.

(** A school record has the two members the loop subscripts. *)
Definition has_id_and_name (school : School.t) : Prop :=
  is_Some (School.id school) /\ is_Some (School.name school).

(** The line printed when the origin is not found. *)
Definition origin_error (config : Config.t) : string :=
  "Error: Could not find origin stop '" +:+ Config.origin_name config +:+ "'".

(** What holds of the cache and the trace after every round of the loop:
    a school id has one resolution when it is in the cache and none
    otherwise; a travel time is asked for a school only within its
    resolution; every trip search is one of those; and besides the search
    for the origin, a resolution makes three stop searches at most. *)
Definition resolved_once (cache : gmap string (option Z)) (events : list event)
  : Prop :=
  (forall id, count (is_resolving_of id) events
              = if present (cache !! id) then 1%nat else 0%nat)
  /\ (forall id, (count (is_travelling_of id) events
                  <= count (is_resolving_of id) events)%nat)
  /\ count is_trip_search events = count is_travelling events
  /\ (count is_stop_search events <= 1 + 3 * count is_resolving events)%nat.

(** The same, when the cache is not at hand. *)
Definition resolved_at_most_once (events : list event) : Prop :=
  (forall id, (count (is_resolving_of id) events <= 1)%nat)
  /\ (forall id, (count (is_travelling_of id) events
                  <= count (is_resolving_of id) events)%nat)
  /\ count is_trip_search events = count is_travelling events
  /\ (count is_stop_search events <= 1 + 3 * count is_resolving events)%nat.

(** ** The school limit *)

Section Limit.
Context {W : Type} `{!Upstream W}.


End Limit.


(** ** Further scenarios *)

Module Scenario.

(** The world of [Demo] with a school directory whose listing fails. *)
Definition world : Script.t :=
  directory Demo.stops (Some "PT1H5M") (Failure "HTTP Error 503") Demo.page.

(** A configuration whose origin is unknown to the transport directory. *)
Definition nowhere : Config.t :=
  Config.of_args "KEY" "Nowhere" "schools.csv" None.


(** A school record without a name, and a listing that has it second. *)
Definition nameless : School.t :=
  School.mk (Some "s2") None (Some "Vasastan") None (Some ["EK"]).

Definition nameless_world : Script.t :=
  directory Demo.stops (Some "PT1H5M")
    (Body (Document.mk None None (Some [Demo.kungsholmen; nameless]) None))
    Demo.page.

End Scenario.

(** * The rest of the program *)

(** ** load_env *)

(** The characters [str.strip] removes, among the ASCII ones: tab to
    carriage return, the four separators and the space. *)
Definition is_space (c : ascii) : bool :=
  let n := N_of_ascii c in
  ((9 <=? n) && (n <=? 13) || (28 <=? n) && (n <=? 32))%N.

Fixpoint lstrip (s : string) : string :=
  match s with
  | EmptyString => EmptyString
  | String c s' => if is_space c then lstrip s' else s
  end.

Fixpoint rstrip (s : string) : string :=
  match s with
  | EmptyString => EmptyString
  | String c s' =>
      match rstrip s' with
      | EmptyString => if is_space c then EmptyString else String c EmptyString
      | String _ _ as r => String c r
      end
  end.

(** [s.strip()] *)
Definition strip (s : string) : string := rstrip (lstrip s).

(** [s.split(sep, 1)] when [sep] occurs in [s]: what is before its first
    occurrence and what is after. *)
Fixpoint split_once (sep : ascii) (s : string) : option (string * string) :=
  match s with
  | EmptyString => None
  | String c s' =>
      if Ascii.eqb c sep then Some (EmptyString, s')
      else match split_once sep s' with
           | Some (before, after) => Some (String c before, after)
           | None => None
           end
  end.

(** The body of the loop of [load_env] on one line of the file: the key
    and the value it assigns, if it assigns one. *)
Definition env_entry (raw : string) : option (string * string) :=
  let line := strip raw in
  if nonempty line && negb (String.prefix "#" line) && contains "=" line then
    match split_once "=" line with
    | Some (key, value) => Some (strip key, strip value)
    | None => None
    end
  else None.

(** [load_env()], on the lines of the [.env] file, [None] when the file
    does not exist. *)
Definition load_env (file : option (list string)) : gmap string string :=
  match file with
  | None => ∅
  | Some lines =>
      fold_left (fun env raw =>
                   match env_entry raw with
                   | Some (key, value) => <[key := value]> env
                   | None => env
                   end)
                lines ∅
  end.

(** ** main *)

(** What [parse_args] returns. *)
Module Args.
Record t := mk { origin : string; output : string; limit : option Z }.
End Args.

(** [a or b] on optional strings. *)
Definition str_or (a b : option string) : option string :=
  if truth nonempty a then a else b.

(** What a run of [main] leaves behind. *)
Module Run.
Record t := mk {
  outcome_of : outcome (list Row.t);
  requests : list event;
  diagnostics : list string }.
End Run.

Definition missing_key_error : string :=
  "Error: RESROBOT_API_KEY not found in .env or environment".

(** [main()] after the arguments are parsed, with the lines of the [.env]
    file and the environment of the process. *)
Definition main {W : Type} `{!Upstream W} (args : Args.t)
    (env_file : option (list string)) (environ : gmap string string) (w : W)
  : Run.t :=
  let env := load_env env_file in
  let api_key := str_or (env !! "RESROBOT_API_KEY")
                        (environ !! "RESROBOT_API_KEY") in
  if negb (truth nonempty api_key) then
    Run.mk (Raise (SystemExit 1)) [] [missing_key_error]
  else
    let config :=
      Config.mk (default "" api_key) (Args.origin args) (Args.output args)
                (Args.limit args) (1 # 10) (3 # 2) in
    let '(o, st) := export_schools config w in
    Run.mk o (trace st) (stderr st).

(** * Vocabulary of the further properties *)

Fixpoint all_space (s : string) : bool :=
  match s with
  | EmptyString => true
  | String c s' => is_space c && all_space s'
  end.



(** The event is not a transport request, or it is one made with the
    access key [key] and, for a trip, from the origin [origin_id]. *)
Definition transport_uses (key : string) (origin_id : option string)
    (e : event) : Prop :=
  match e with
  | Get (LocationNameUrl _ accessId) _ => accessId = key
  | Get (TripUrl originId _ accessId) _ => accessId = key /\ originId = origin_id
  | _ => True
  end.

(** The part of a row that comes from the program page. *)
Definition row_core (row : Row.t)
  : string * (option Q * option Q * option Q)
    * (string * option Q * option Q * option Q * option Q) :=
  (Row.program row,
   (Row.averageGrade row, Row.flowthroughRate row, Row.femaleRatio row),
   (Row.studyPath_name row, Row.compareNumber row, Row.min row,
    Row.median row, Row.admitted row)).

(** What a page fetch owes to the table: for every study path of the page
    obtained, the program asked for, the statistics of the page and the
    members of the study path. *)
Definition cores_due (e : event)
  : list (string * (option Q * option Q * option Q)
          * (string * option Q * option Q * option Q * option Q)) :=
  match e with
  | Get (GetProgramPageUrl _ program _) r =>
      match page_of_reply r with
      | Some page =>
          let stats := default EducationStats.empty
                               (ProgramPage.educationStats page) in
          List.map (fun path =>
                      (program,
                       (EducationStats.averageGrade stats,
                        EducationStats.flowthroughRate stats,
                        ProgramPage.femaleRatio page),
                       (default "" (StudyPath.name path),
                        StudyPath.compareNumber path, StudyPath.min path,
                        StudyPath.median path, StudyPath.admitted path)))
                   (default [] (ProgramPage.studyPaths page))
      | None => []
      end
  | _ => []
  end.



(** A row belongs to a school record whose id has the travel time of the
    row in [times]. *)
Definition row_of_school (times : gmap string (option Z))
    (schools : list School.t) (row : Row.t) : Prop :=
  exists school id,
    In school schools
    /\ School.id school = Some id
    /\ School.name school = Some (Row.school_name row)
    /\ Row.school_location row = default "" (School.location school)
    /\ times !! id = Some (Row.travel_time_minutes row).

(** [id] is the id of one of the records. *)
Definition listed (schools : list School.t) (id : string) : Prop :=
  exists school, In school schools /\ School.id school = Some id.


(** * Properties *)

(** ** The functions on small inputs *)

Example parse_duration_hours_minutes : parse_duration (Some "PT1H15M") = Some 75.
Proof. reflexivity. Qed.

Example parse_duration_minutes : parse_duration (Some "PT25M") = Some 25.
Proof. reflexivity. Qed.

Example parse_duration_bare : parse_duration (Some "PT") = Some 0.
Proof. reflexivity. Qed.

Example parse_duration_days : parse_duration (Some "P1DT2H") = None.
Proof. reflexivity. Qed.

Example parse_duration_seconds : parse_duration (Some "PT2H30M15S") = Some 150.
Proof. reflexivity. Qed.

Example parse_duration_empty : parse_duration (Some "") = None.
Proof. reflexivity. Qed.

Example select_stop_prefers_stockholm :
  select_stop [Location.mk (Some Demo.odenplan); Location.mk (Some Demo.centralen)]
  = Some Demo.centralen.
Proof. reflexivity. Qed.

Example select_stop_falls_back :
  select_stop [Location.mk (Some Demo.odenplan); Location.mk (Some Demo.fridhemsplan)]
  = Some Demo.odenplan.
Proof. reflexivity. Qed.

Example slice_to_negative : slice_to (-1) [1; 2; 3] = [1; 2].
Proof. reflexivity. Qed.

Example limit_schools_zero :
  limit_schools (Some 0) [Demo.kungsholmen; Demo.kungsholmen_again]
  = [Demo.kungsholmen; Demo.kungsholmen_again].
Proof. reflexivity. Qed.

(** The district query finds the stop after the two queries by name have
    failed. *)
Example find_school_stop_third_variant :
  fst (find_school_stop "Kungsholmens gymnasium" "Kungsholmen"
         (initial_state Demo.config Demo.world))
  = Ret (Some Demo.fridhemsplan).
Proof. vm_compute. reflexivity. Qed.

Example export_schools_demo_travel_times :
  match fst (export_schools Demo.config Demo.world) with
  | Ret rows => List.map Row.travel_time_minutes rows
  | Raise _ => []
  end = [Some 65; Some 65; Some 65; Some 65].
Proof. vm_compute. reflexivity. Qed.

(** ** Strings *)

Lemma append_String (c : ascii) (s t : string) :
  String c s +:+ t = String c (s +:+ t).
Proof. reflexivity. Qed.

Lemma append_empty_l (t : string) : "" +:+ t = t.
Proof. reflexivity. Qed.


Lemma append_assoc (a b c : string) : (a +:+ b) +:+ c = a +:+ (b +:+ c).
Proof.
  induction a as [|x a IH]; [reflexivity |].
  now rewrite !append_String, IH.
Qed.



(** ** parse_duration *)













(** ** Substrings and case *)

Lemma prefix_spec (p s : string) :
  String.prefix p s = true <-> exists rest, s = p +:+ rest.
Proof.
  revert s. induction p as [|c p IH]; intros s.
  - split; [intros _; now exists s | now destruct s].
  - destruct s as [|b s]; simpl.
    + split; [discriminate | intros [rest E]; discriminate E].
    + destruct (ascii_dec c b) as [->|Hne].
      * rewrite IH. split; intros [rest E]; exists rest.
        -- now rewrite append_String, E.
        -- rewrite append_String in E. now injection E.
      * split; [discriminate |].
        intros [rest E]. rewrite append_String in E. injection E as E1 E2.
        congruence.
Qed.

Lemma contains_unfold (needle hay : string) :
  contains needle hay
  = String.prefix needle hay ||
    match hay with
    | EmptyString => false
    | String _ hay' => contains needle hay'
    end.
Proof. now destruct hay. Qed.

Lemma contains_spec (needle hay : string) :
  contains needle hay = true <->
  exists before after, hay = before +:+ needle +:+ after.
Proof.
  induction hay as [|c hay IH];
    rewrite contains_unfold, orb_true_iff, prefix_spec.
  - split.
    + intros [[rest E]|H]; [| discriminate]. now exists "", rest.
    + intros (before & after & E). left.
      destruct before as [|b before]; [now exists after |].
      rewrite append_String in E. discriminate E.
  - rewrite IH. split.
    + intros [[rest E]|(before & after & E)].
      * now exists "", rest.
      * exists (String c before), after. now rewrite append_String, E.
    + intros (before & after & E).
      destruct before as [|b before].
      * left. now exists after.
      * right. rewrite append_String in E. injection E as -> E.
        now exists before, after.
Qed.




(** ** select_stop *)




(** ** The client methods, run in a state *)

Section Runs.
Context {W : Type} `{!Upstream W}.

Lemma lookup_stop_run (query : string) (st : state W) :
  exists r st',
    lookup_stop query st = (Ret (stop_of_reply r), st')
    /\ trace st' = trace st ++
         [Get (LocationNameUrl query (ResRobotClient.api_key (resrobot st))) r]
    /\ stderr st' = stderr st ++ lookup_warning query r
    /\ ResRobotClient.api_key (resrobot st') = ResRobotClient.api_key (resrobot st)
    /\ ResRobotClient.delay (resrobot st') = ResRobotClient.delay (resrobot st)
    /\ ednia st' = ednia st.
Proof.
  unfold lookup_stop, bind, ResRobotClient_rate_limit, gets, try_except,
    http_get, eprint, ret.
  destruct (throttle _ _ _) as [t w1]. simpl.
  destruct (get _ w1) as [[reason|data] w2]; simpl.
  - eexists (Failure reason), _. repeat split; simpl; rewrite ?app_nil_r; reflexivity.
  - eexists (Body data), _. repeat split; simpl; rewrite ?app_nil_r; reflexivity.
Qed.

Lemma get_travel_time_run (origin_id dest_id : option string) (st : state W) :
  exists r st',
    get_travel_time origin_id dest_id st = (Ret (minutes_of_reply r), st')
    /\ trace st' = trace st ++
         [Get (TripUrl origin_id dest_id (ResRobotClient.api_key (resrobot st))) r]
    /\ stderr st' = stderr st ++ trip_warning r
    /\ ResRobotClient.api_key (resrobot st') = ResRobotClient.api_key (resrobot st)
    /\ ResRobotClient.delay (resrobot st') = ResRobotClient.delay (resrobot st)
    /\ ednia st' = ednia st.
Proof.
  unfold get_travel_time, bind, ResRobotClient_rate_limit, gets, try_except,
    http_get, eprint, ret.
  destruct (throttle _ _ _) as [t w1]. simpl.
  destruct (get _ w1) as [[reason|data] w2]; simpl.
  - eexists (Failure reason), _. repeat split; simpl; rewrite ?app_nil_r; reflexivity.
  - eexists (Body data), _. simpl.
    destruct (default [] (Document.Trip data)) as [|trip0 trips];
      repeat split; simpl; rewrite ?app_nil_r; reflexivity.
Qed.

Lemma get_program_page_run (school_id program_code municipality : string)
    (st : state W) :
  exists r st',
    get_program_page school_id program_code municipality st
      = (Ret (page_of_reply r), st')
    /\ trace st' = trace st ++
         [Get (GetProgramPageUrl school_id program_code municipality) r]
    /\ stderr st' = stderr st ++ page_warning r
    /\ resrobot st' = resrobot st
    /\ EdniaClient.delay (ednia st') = EdniaClient.delay (ednia st).
Proof.
  unfold get_program_page, bind, EdniaClient_rate_limit, try_except,
    http_get, eprint, ret.
  destruct (throttle _ _ _) as [t w1]. simpl.
  destruct (get _ w1) as [[reason|data] w2]; simpl.
  - eexists (Failure reason), _. repeat split; simpl; rewrite ?app_nil_r; reflexivity.
  - eexists (Body data), _. repeat split; simpl; rewrite ?app_nil_r; reflexivity.
Qed.

Lemma get_schools_run (municipality : string) (limit : Z) (st : state W) :
  exists r st',
    get_schools municipality limit st = (schools_of_reply r, st')
    /\ trace st' = trace st ++
         [Post RecommendUrl (recommend_data municipality limit) r]
    /\ stderr st' = stderr st
    /\ resrobot st' = resrobot st
    /\ EdniaClient.delay (ednia st') = EdniaClient.delay (ednia st).
Proof.
  unfold get_schools, bind, EdniaClient_rate_limit, http_post, ret.
  destruct (throttle _ _ _) as [t w1]. simpl.
  fold (recommend_data municipality limit).
  destruct (post _ _ w1) as [[reason|data] w2]; simpl.
  - eexists (Failure reason), _. repeat split; reflexivity.
  - eexists (Body data), _. repeat split; reflexivity.
Qed.

End Runs.

(** ** select_stop and lookup_stop *)





(** ** find_school_stop *)

Lemma find_school_stop_run {W : Type} `{!Upstream W}
    (school_name location : string) (st : state W) :
  exists replies result st',
    find_school_stop school_name location st = (Ret result, st')
    /\ trace st' = trace st ++
         lookup_events (ResRobotClient.api_key (resrobot st))
                       (combine (variants school_name location) replies)
    /\ (1 <= length replies <= length (variants school_name location))%nat
    /\ (length (variants school_name location) <= 3)%nat
    /\ (forall r, In r (removelast replies) -> succeeds r = false)
    /\ match result with
       | Some stop =>
           Stop.truthy stop = true
           /\ stop_of_reply (List.last replies (Failure "")) = Some stop
       | None =>
           length replies = length (variants school_name location)
           /\ succeeds (List.last replies (Failure "")) = false
       end
    /\ ResRobotClient.api_key (resrobot st') = ResRobotClient.api_key (resrobot st).
Proof.
  assert (Hsome : forall r, succeeds r = true ->
            exists stop, stop_of_reply r = Some stop /\ Stop.truthy stop = true).
  { intros r. unfold succeeds.
    destruct (stop_of_reply r) as [stop|]; simpl; [eauto | discriminate]. }
  assert (Hlen : (length (variants school_name location) <= 3)%nat).
  { unfold variants. destruct (nonempty location); simpl; lia. }
  destruct (lookup_stop_run school_name st)
    as (r1 & st1 & H1 & T1 & _ & K1 & _).
  destruct (lookup_stop_run (school_name +:+ " Stockholm") st1)
    as (r2 & st2 & H2 & T2 & _ & K2 & _).
  destruct (lookup_stop_run (location +:+ " Stockholm") st2)
    as (r3 & st3 & H3 & T3 & _ & K3 & _).
  pose proof K2 as K2'. pose proof K3 as K3'.
  rewrite K1 in T2, K2'. rewrite K2' in T3, K3'.
  unfold find_school_stop, bind. rewrite H1.
  fold (succeeds r1). destruct (succeeds r1) eqn:E1.
  { exists [r1], (stop_of_reply r1), st1.
    split; [reflexivity |]. split; [exact T1 |].
    split; [unfold variants; simpl; lia |]. split; [exact Hlen |].
    split; [intros r [] |]. split; [| exact K1].
    destruct (Hsome r1 E1) as (stop & Hs & Ht). simpl. rewrite Hs. now split. }
  rewrite H2. fold (succeeds r2). destruct (succeeds r2) eqn:E2.
  { exists [r1; r2], (stop_of_reply r2), st2.
    split; [reflexivity |].
    split; [rewrite T2, T1, <- app_assoc; unfold variants;
            destruct (nonempty location); reflexivity |].
    split; [unfold variants; simpl; lia |]. split; [exact Hlen |].
    split; [intros r [<-|[]]; exact E1 |]. split; [| congruence].
    destruct (Hsome r2 E2) as (stop & Hs & Ht). simpl. rewrite Hs. now split. }
  unfold variants. destruct (nonempty location) eqn:Eloc.
  - rewrite H3. fold (succeeds r3). destruct (succeeds r3) eqn:E3.
    + exists [r1; r2; r3], (stop_of_reply r3), st3.
      split; [reflexivity |].
      split; [rewrite T3, T2, T1, <- !app_assoc; reflexivity |].
      split; [simpl; lia |]. split; [simpl; lia |].
      split; [intros r [<-|[<-|[]]]; assumption |]. split; [| congruence].
      destruct (Hsome r3 E3) as (stop & Hs & Ht). simpl. rewrite Hs. now split.
    + exists [r1; r2; r3], None, st3.
      split; [reflexivity |].
      split; [rewrite T3, T2, T1, <- !app_assoc; reflexivity |].
      split; [simpl; lia |]. split; [simpl; lia |].
      split; [intros r [<-|[<-|[]]]; assumption |].
      split; [now split | congruence].
  - exists [r1; r2], None, st2.
    split; [reflexivity |].
    split; [rewrite T2, T1, <- app_assoc; reflexivity |].
    split; [simpl; lia |]. split; [simpl; lia |].
    split; [intros r [<-|[]]; exact E1 |].
    split; [now split | congruence].
Qed.

(** C4.  [find_school_stop] asks the variants in order: the school name,
    the school name followed by " Stockholm" and, only for a district name
    that is given, the district name followed by " Stockholm".  It asks at
    least one and at most three of them, each at most once; every variant
    asked before the last one asked failed; it returns the stop of the last
    variant asked when that one succeeds, and absent when every applicable
    variant was asked and failed. *)
Theorem find_school_stop_strategy {W : Type} `{!Upstream W}
    (school_name location : string) (st : state W) :
  exists replies result st',
    find_school_stop school_name location st = (Ret result, st')
    /\ trace st' = trace st ++
         lookup_events (ResRobotClient.api_key (resrobot st))
                       (combine (variants school_name location) replies)
    /\ (1 <= length replies <= length (variants school_name location))%nat
    /\ (length (variants school_name location) <= 3)%nat
    /\ (forall r, In r (removelast replies) -> succeeds r = false)
    /\ match result with
       | Some stop =>
           Stop.truthy stop = true
           /\ stop_of_reply (List.last replies (Failure "")) = Some stop
       | None =>
           length replies = length (variants school_name location)
           /\ succeeds (List.last replies (Failure "")) = false
       end.
Proof.
  destruct (find_school_stop_run school_name location st)
    as (replies & result & st' & H1 & H2 & H3 & H4 & H5 & H6 & _).
  now exists replies, result, st'.
Qed.

(** ** Rate limiting *)

Section LimiterProofs.
Context {W : Type} `{!Upstream W}.
Hypothesis steady : clock_steady (W := W).
Hypothesis lasts : sleep_lasts (W := W).

Lemma throttle_gap (delay last_request : Q) (w : W) :
  (last_request + delay <= fst (throttle delay last_request w))%Q.
Proof.
  unfold throttle. pose proof (steady w) as Hs.
  destruct (clock w) as [t w1] eqn:Ew. simpl in Hs.
  destruct (Qlt_le_dec (t - last_request) delay) as [Hlt|Hge].
  - pose proof (lasts (delay - (t - last_request))%Q w) as Hl.
    rewrite Ew in Hl. simpl in Hl. lra.
  - lra.
Qed.

Lemma permitted_times_gap (delay : Q) (between : list (W -> W)) :
  forall (last_request : Q) (w : W) (i : nat) (t t' : Q),
    permitted_times delay last_request w between !! i = Some t ->
    permitted_times delay last_request w between !! S i = Some t' ->
    (t + delay <= t')%Q.
Proof.
  induction between as [|f rest IH]; intros last_request w i t t' Ht Ht'.
  - discriminate Ht.
  - simpl in Ht, Ht'.
    destruct (throttle delay last_request w) as [t0 w'] eqn:E0.
    destruct i as [|i].
    + simpl in Ht. injection Ht as <-.
      destruct rest as [|g rest]; [discriminate Ht' |].
      simpl in Ht'.
      pose proof (throttle_gap delay t0 (f w')) as Hgap.
      destruct (throttle delay t0 (f w')) as [t1 w1].
      simpl in Ht', Hgap. injection Ht' as <-. exact Hgap.
    + exact (IH t0 (f w') i t t' Ht Ht').
Qed.

End LimiterProofs.

Lemma throttle_first_call {W : Type} `{!Upstream W} (delay : Q) (w : W) :
  (delay <= fst (clock w))%Q ->
  throttle delay 0 w = clock (snd (clock w)).
Proof.
  intros Hd. unfold throttle. destruct (clock w) as [t w1]. simpl in *.
  destruct (Qlt_le_dec (t - 0) delay) as [Hlt|Hge]; [lra | reflexivity].
Qed.

Lemma script_clock_steady : clock_steady (W := Script.t).
Proof. intros w. simpl. apply Qle_refl. Qed.

Lemma script_sleep_lasts : sleep_lasts (W := Script.t).
Proof. intros seconds w. simpl. rewrite Qred_correct. apply Qle_refl. Qed.

(** C7 (as the code has it).  With a clock that does not go back and a
    sleep that lasts at least the time asked for, the times at which one
    limiter of interval [delay] permits any two consecutive calls are at
    least [delay] apart, whatever happens between the calls; both
    [_rate_limit] methods are this limiter on the fields of their client.
    The first call, made with [last_request] at its initial 0, is permitted
    without sleeping when the clock then reads [delay] or more. *)
Theorem rate_limiter_gap {W : Type} `{!Upstream W}
    (delay : Q) (w : W) (between : list (W -> W)) (i : nat) (t t' : Q)
    (st : state W) :
  clock_steady (W := W) -> sleep_lasts (W := W) ->
  (permitted_times delay 0 w between !! i = Some t ->
   permitted_times delay 0 w between !! S i = Some t' ->
   (t + delay <= t')%Q)
  /\ ((delay <= fst (clock w))%Q -> throttle delay 0 w = clock (snd (clock w)))
  /\ (let self := resrobot st in
      let tw := throttle (ResRobotClient.delay self)
                         (ResRobotClient.last_request self) (world st) in
      ResRobotClient_rate_limit st
      = (Ret tt, mkState (snd tw)
                   (ResRobotClient.mk (ResRobotClient.api_key self)
                                      (ResRobotClient.delay self) (fst tw))
                   (ednia st) (trace st) (stderr st)))
  /\ (let self := ednia st in
      let tw := throttle (EdniaClient.delay self)
                         (EdniaClient.last_request self) (world st) in
      EdniaClient_rate_limit st
      = (Ret tt, mkState (snd tw) (resrobot st)
                   (EdniaClient.mk (EdniaClient.delay self) (fst tw))
                   (trace st) (stderr st))).
Proof.
  intros steady lasts. split; [| split; [| split]].
  - now apply permitted_times_gap.
  - apply throttle_first_call.
  - unfold ResRobotClient_rate_limit. simpl. now destruct (throttle _ _ _).
  - unfold EdniaClient_rate_limit. simpl. now destruct (throttle _ _ _).
Qed.

Lemma rate_limiter_gap_witness :
  (1800000000 + (3 # 2) <= 3600000003 # 2)%Q
  /\ throttle (3 # 2) 0 Demo.world = clock (snd (clock Demo.world)).
Proof.
  destruct (rate_limiter_gap (3 # 2) Demo.world [id; id] 0
              1800000000 (3600000003 # 2)
              (initial_state Demo.config Demo.world)
              script_clock_steady script_sleep_lasts)
    as (Hgap & Hfirst & _).
  split.
  - apply Hgap; reflexivity.
  - apply Hfirst. vm_compute. discriminate.
Defined.

(** C7 as stated fails for the first call: with an interval longer than the
    reading of the clock (here 2000000000 seconds against a clock at
    1800000000), the first call arrives at 1800000000 and is permitted at
    2000000000 only, after a sleep. *)
Lemma first_call_delayed :
  fst (clock Demo.world) = 1800000000%Q
  /\ fst (throttle 2000000000 0 Demo.world) = 2000000000%Q
  /\ throttle 2000000000 0 Demo.world <> clock (snd (clock Demo.world)).
Proof.
  split; [reflexivity |]. split; [reflexivity |].
  intros E. apply (f_equal fst) in E. vm_compute in E. discriminate E.
Qed.

(** ** Loops *)

Section Loops.
Context {W : Type} `{!Upstream W}.

Lemma for_each_app {A B} (body : A -> B -> M (state W) B) (xs ys : list A) :
  forall (acc : B) (st : state W),
    for_each (xs ++ ys) body acc st
    = match for_each xs body acc st return outcome B * state W with
      | (Ret acc', st') => for_each ys body acc' st'
      | (Raise e, st') => (Raise e, st')
      end.
Proof.
  induction xs as [|x xs IH]; intros acc st; simpl; [reflexivity |].
  unfold bind. destruct (body x acc st) as [[acc'|e] st']; [apply IH | reflexivity].
Qed.

(** The rule of the loop: [I] holds of the elements done, the variables and
    the state after every round; [J] holds of the state in which a round
    raised. *)
Lemma for_each_rule {A B} (P : A -> Prop) (I : list A -> B -> state W -> Prop)
    (J : exn -> state W -> Prop) (body : A -> B -> M (state W) B) :
  (forall done x acc st, P x -> I done acc st ->
     match body x acc st with
     | (Ret acc', st') => I (done ++ [x]) acc' st'
     | (Raise e, st') => J e st'
     end) ->
  forall xs done acc st, Forall P xs -> I done acc st ->
    match for_each xs body acc st with
    | (Ret acc', st') => I (done ++ xs) acc' st'
    | (Raise e, st') => J e st'
    end.
Proof.
  intros Hbody xs. induction xs as [|x xs IH]; intros done acc st HP HI; simpl.
  - now rewrite app_nil_r.
  - apply Forall_cons_1 in HP as [Hx HP].
    specialize (Hbody done x acc st Hx HI). unfold bind.
    destruct (body x acc st) as [[acc'|e] st']; [| exact Hbody].
    specialize (IH (done ++ [x]) acc' st' HP Hbody).
    now rewrite <- app_assoc in IH.
Qed.

End Loops.

(** ** Reading traces *)

Lemma rows_owed_app (xs ys : list event) :
  rows_owed (xs ++ ys) = (rows_owed xs + rows_owed ys)%nat.
Proof. induction xs as [|e xs IH]; simpl; [reflexivity | lia]. Qed.

Lemma page_requests_app (xs ys : list event) :
  page_requests (xs ++ ys) = page_requests xs ++ page_requests ys.
Proof.
  induction xs as [|e xs IH]; simpl; [reflexivity |].
  destruct e as [[]| | |]; simpl; now rewrite ?IH.
Qed.

Lemma listings_app (xs ys : list event) :
  listings (xs ++ ys) = listings xs ++ listings ys.
Proof.
  induction xs as [|e xs IH]; simpl; [reflexivity |].
  destruct e; simpl; now rewrite ?IH.
Qed.

Lemma count_app (p : event -> bool) (xs ys : list event) :
  count p (xs ++ ys) = (count p xs + count p ys)%nat.
Proof. induction xs as [|e xs IH]; simpl; [reflexivity | lia]. Qed.

Lemma rows_of_page_length (school_name school_location program : string)
    (travel_time : option Z) (page : option ProgramPage.t) :
  length (rows_of_page school_name school_location program travel_time page)
  = length (study_paths_of page).
Proof. destruct page; simpl; [apply length_map | reflexivity]. Qed.

(** ** The rounds of the export loop *)

Section Rounds.
Context {W : Type} `{!Upstream W}.

Lemma page_falsy (page : ProgramPage.t) :
  ProgramPage.truthy page = false -> ProgramPage.studyPaths page = None.
Proof.
  unfold ProgramPage.truthy. intros E.
  apply orb_false_iff in E as [E _]. apply orb_false_iff in E as [_ E].
  now destruct (ProgramPage.studyPaths page).
Qed.

Lemma export_program_run (school_id school_name school_location municipality : string)
    (travel_time : option Z) (program : string) (rows : list Row.t) (st : state W) :
  exists r st',
    export_program school_id school_name school_location municipality
                   travel_time program rows st
    = (Ret (rows ++ rows_of_page school_name school_location program
                                 travel_time (page_of_reply r)), st')
    /\ trace st' = trace st ++
         [Get (GetProgramPageUrl school_id program municipality) r]
    /\ resrobot st' = resrobot st.
Proof.
  destruct (get_program_page_run school_id program municipality st)
    as (r & st' & Hrun & Ht & _ & Hr & _).
  exists r, st'. split; [| now split].
  unfold export_program, bind. rewrite Hrun.
  destruct (page_of_reply r) as [page|]; simpl; [| now rewrite app_nil_r].
  destruct (ProgramPage.truthy page) eqn:E; simpl.
  - destruct (default [] (ProgramPage.studyPaths page)); simpl;
      [now rewrite app_nil_r | reflexivity].
  - rewrite (page_falsy page E). simpl. now rewrite app_nil_r.
Qed.

Lemma export_programs_run (school_id school_name school_location municipality : string)
    (travel_time : option Z) (programs : list string) :
  forall (rows : list Row.t) (st : state W),
  exists replies st',
    for_each programs
      (export_program school_id school_name school_location municipality
                      travel_time) rows st
    = (Ret (rows ++
            flat_map (fun pr => rows_of_page school_name school_location (fst pr)
                                  travel_time (page_of_reply (snd pr)))
                     (combine programs replies)), st')
    /\ length replies = length programs
    /\ trace st' = trace st ++
         page_events school_id municipality (combine programs replies)
    /\ resrobot st' = resrobot st.
Proof.
  induction programs as [|program programs IH]; intros rows st.
  - exists [], st. simpl. rewrite !app_nil_r. now repeat split.
  - destruct (export_program_run school_id school_name school_location
                municipality travel_time program rows st)
      as (r & st1 & Hrun & Ht & Hr).
    destruct (IH (rows ++ rows_of_page school_name school_location program
                            travel_time (page_of_reply r)) st1)
      as (replies & st' & Hloop & Hlen & Ht' & Hr').
    exists (r :: replies), st'. simpl. unfold bind. rewrite Hrun, Hloop.
    split; [now rewrite <- app_assoc |].
    split; [now rewrite Hlen |].
    split; [rewrite Ht', Ht, <- app_assoc; reflexivity | congruence].
Qed.

Lemma resolve_travel_time_run (origin_id : option string)
    (school_id school_name school_location : string)
    (cache : gmap string (option Z)) (st : state W) :
  exists replies stop r st',
    resolve_travel_time origin_id school_id school_name school_location cache st
    = (Ret (<[school_id := travel_value stop r]> cache), st')
    /\ trace st' = trace st ++
         Resolving school_id ::
         lookup_events (ResRobotClient.api_key (resrobot st))
                       (combine (variants school_name school_location) replies)
         ++ travel_events school_id origin_id
                          (ResRobotClient.api_key (resrobot st)) stop r
    /\ (length replies <= 3)%nat
    /\ ResRobotClient.api_key (resrobot st') = ResRobotClient.api_key (resrobot st).
Proof.
  unfold resolve_travel_time, bind, emit.
  set (st0 := mkState (world st) (resrobot st) (ednia st)
                      (trace st ++ [Resolving school_id]) (stderr st)).
  destruct (find_school_stop_run school_name school_location st0)
    as (replies & result & st1 & Hf & Ht & Hlen & Hv & _ & Hres & Hk).
  rewrite Hf. simpl in Ht, Hk.
  assert (Hlen3 : (length replies <= 3)%nat) by lia.
  destruct result as [s|].
  - destruct Hres as [Hs _]. rewrite Hs.
    set (st2 := mkState (world st1) (resrobot st1) (ednia st1)
                        (trace st1 ++ [Travelling school_id]) (stderr st1)).
    destruct (get_travel_time_run origin_id (Stop.extId s) st2)
      as (r & st' & Hg & Ht' & _ & Hk' & _).
    rewrite Hg. simpl in Ht', Hk'.
    exists replies, (Some s), r, st'. split; [reflexivity |].
    split; [| split; [exact Hlen3 | congruence]].
    rewrite Ht', Ht, Hk. simpl. rewrite <- !app_assoc. reflexivity.
  - exists replies, None, (Failure ""), st1. split; [reflexivity |].
    split; [| split; [exact Hlen3 | exact Hk]].
    rewrite Ht. simpl. rewrite app_nil_r, <- app_assoc. reflexivity.
Qed.

End Rounds.

Section School.
Context {W : Type} `{!Upstream W}.

(** A record without an id or without a name stops the round before
    anything is done. *)
Lemma export_school_KeyError (origin_id : option string) (school : School.t)
    (vars : gmap string (option Z) * list Row.t) (st : state W) :
  ~ has_id_and_name school ->
  export_school origin_id school vars st
  = (Raise (KeyError (if present (School.id school) then "name" else "id")), st).
Proof.
  intros Hno. unfold export_school, bind. destruct vars as [cache rows].
  destruct (School.id school) as [school_id|] eqn:Eid; simpl; [| reflexivity].
  destruct (School.name school) as [school_name|] eqn:Ename; simpl;
    [| reflexivity].
  exfalso. apply Hno. unfold has_id_and_name. rewrite Eid, Ename. eauto.
Qed.

(** A round on a record with an id and a name. *)
Lemma export_school_run (origin_id : option string) (school : School.t)
    (cache : gmap string (option Z)) (rows : list Row.t) (st : state W)
    (school_id school_name : string) :
  School.id school = Some school_id ->
  School.name school = Some school_name ->
  let school_location := default "" (School.location school) in
  let municipality := default "stockholm" (School.municipality school) in
  let programs := default [] (School.programs school) in
  let key := ResRobotClient.api_key (resrobot st) in
  exists resolution cache' travel_time replies st',
    export_school origin_id school (cache, rows) st
    = (Ret (cache',
            rows ++
            flat_map (fun pr => rows_of_page school_name school_location (fst pr)
                                  travel_time (page_of_reply (snd pr)))
                     (combine programs replies)), st')
    /\ trace st' = trace st ++ resolution ++
         page_events school_id municipality (combine programs replies)
    /\ length replies = length programs
    /\ cache' !! school_id = Some travel_time
    /\ match cache !! school_id with
       | Some _ => resolution = [] /\ cache' = cache
       | None =>
           exists lookups stop r,
             (length lookups <= 3)%nat
             /\ resolution =
                  Resolving school_id ::
                  lookup_events key
                    (combine (variants school_name school_location) lookups)
                  ++ travel_events school_id origin_id key stop r
             /\ cache' = <[school_id := travel_value stop r]> cache
       end
    /\ ResRobotClient.api_key (resrobot st') = key.
Proof.
  intros Eid Ename school_location municipality programs key.
  unfold export_school, bind. rewrite Eid, Ename. simpl.
  fold school_location municipality programs.
  destruct (cache !! school_id) as [travel_time|] eqn:Ecache.
  - simpl. rewrite Ecache. simpl.
    destruct (export_programs_run school_id school_name school_location
                municipality travel_time programs rows st)
      as (replies & st' & Hloop & Hlen & Ht & Hr).
    rewrite Hloop. exists [], cache, travel_time, replies, st'.
    split; [reflexivity |]. split; [exact Ht |]. split; [exact Hlen |].
    split; [exact Ecache |]. split; [now split |]. unfold key. congruence.
  - destruct (resolve_travel_time_run origin_id school_id school_name
                school_location cache st)
      as (lookups & stop & r & st1 & Hres & Ht1 & Hlen1 & Hk1).
    rewrite Hres. simpl. rewrite lookup_insert_eq. simpl.
    destruct (export_programs_run school_id school_name school_location
                municipality (travel_value stop r) programs rows st1)
      as (replies & st' & Hloop & Hlen & Ht & Hr).
    rewrite Hloop.
    eexists _, _, (travel_value stop r), replies, st'.
    split; [reflexivity |].
    split; [rewrite Ht, Ht1, <- app_assoc; reflexivity |].
    split; [exact Hlen |]. split; [apply lookup_insert_eq |].
    split; [| unfold key; congruence].
    exists lookups, stop, r. now repeat split.
Qed.

End School.

(** ** What the events of a round count for *)

Lemma lookup_events_rows (key : string) (asked : list (string * reply)) :
  rows_owed (lookup_events key asked) = 0%nat
  /\ page_requests (lookup_events key asked) = []
  /\ listings (lookup_events key asked) = [].
Proof. induction asked as [|[q r] asked IH]; simpl; [easy | exact IH]. Qed.

Lemma travel_events_rows (school_id : string) (origin_id : option string)
    (key : string) (stop : option Stop.t) (r : reply) :
  rows_owed (travel_events school_id origin_id key stop r) = 0%nat
  /\ page_requests (travel_events school_id origin_id key stop r) = []
  /\ listings (travel_events school_id origin_id key stop r) = [].
Proof. now destruct stop. Qed.

Lemma page_events_rows (school_id school_name school_location municipality : string)
    (travel_time : option Z) (fetched : list (string * reply)) :
  rows_owed (page_events school_id municipality fetched)
  = length (flat_map (fun pr => rows_of_page school_name school_location (fst pr)
                                  travel_time (page_of_reply (snd pr))) fetched).
Proof.
  induction fetched as [|[program r] fetched IH]; simpl; [reflexivity |].
  now rewrite length_app, rows_of_page_length, IH.
Qed.

Lemma page_events_requests (school_id municipality : string)
    (programs : list string) :
  forall replies : list reply,
    length replies = length programs ->
    page_requests (page_events school_id municipality (combine programs replies))
    = List.map (fun program => (school_id, program, municipality)) programs.
Proof.
  induction programs as [|program programs IH]; intros [|r replies] Hlen;
    simpl in *; try discriminate; [reflexivity |].
  now rewrite IH by lia.
Qed.

Lemma page_events_listings (school_id municipality : string)
    (fetched : list (string * reply)) :
  listings (page_events school_id municipality fetched) = [].
Proof. induction fetched as [|[program r] fetched IH]; simpl; [reflexivity | exact IH]. Qed.

Lemma page_events_count (p : event -> bool) (school_id municipality : string)
    (fetched : list (string * reply)) :
  (forall u r, p (Get (GetProgramPageUrl school_id u municipality) r) = false) ->
  count p (page_events school_id municipality fetched) = 0%nat.
Proof.
  intros Hp. induction fetched as [|[program r] fetched IH]; simpl;
    [reflexivity | now rewrite Hp, IH].
Qed.

Lemma lookup_events_count (p : event -> bool) (key : string)
    (asked : list (string * reply)) :
  (forall q r, p (Get (LocationNameUrl q key) r) = false) ->
  count p (lookup_events key asked) = 0%nat.
Proof.
  intros Hp. induction asked as [|[q r] asked IH]; simpl;
    [reflexivity | now rewrite Hp, IH].
Qed.

Lemma lookup_events_searches (key : string) (asked : list (string * reply)) :
  count is_stop_search (lookup_events key asked) = length asked.
Proof. induction asked as [|[q r] asked IH]; simpl; [reflexivity | now rewrite IH]. Qed.

(** ** The phases *)

Section Phases.
Context {W : Type} `{!Upstream W}.

Lemma resolve_origin_run (config : Config.t) (st : state W) :
  exists r st1,
    lookup_stop (Config.origin_name config) st = (Ret (stop_of_reply r), st1)
    /\ trace st1 = trace st ++
         [Get (LocationNameUrl (Config.origin_name config)
                               (ResRobotClient.api_key (resrobot st))) r]
    /\ ResRobotClient.api_key (resrobot st1) = ResRobotClient.api_key (resrobot st)
    /\ resolve_origin config st
       = if succeeds r
         then (Ret (stop_of_reply r ≫= Stop.extId), st1)
         else (Raise (SystemExit 1),
               mkState (world st1) (resrobot st1) (ednia st1) (trace st1)
                       (stderr st1 ++ [origin_error config])).
Proof.
  destruct (lookup_stop_run (Config.origin_name config) st)
    as (r & st1 & Hrun & Ht & _ & Hk & _).
  exists r, st1. split; [exact Hrun |]. split; [exact Ht |]. split; [exact Hk |].
  unfold resolve_origin, bind. rewrite Hrun. fold (succeeds r).
  now destruct (succeeds r).
Qed.

Lemma fetch_schools_run (config : Config.t) (st : state W) :
  exists r st',
    get_schools "stockholm" 500 st = (schools_of_reply r, st')
    /\ trace st' = trace st ++
         [Post RecommendUrl (recommend_data "stockholm" 500) r]
    /\ stderr st' = stderr st
    /\ resrobot st' = resrobot st
    /\ fetch_schools config st
       = (match schools_of_reply r with
          | Ret listing => Ret (limit_schools (Config.school_limit config) listing)
          | Raise e => Raise e
          end, st').
Proof.
  destruct (get_schools_run "stockholm" 500 st) as (r & st' & Hrun & Ht & He & Hr & _).
  exists r, st'. repeat (split; [assumption |]).
  unfold fetch_schools, bind. rewrite Hrun. now destruct (schools_of_reply r).
Qed.

(** The rows and the page fetches of phase 3. *)
Lemma export_loop_rows (origin_id : option string) (schools : list School.t)
    (st : state W) :
  match export_loop origin_id schools st with
  | (Ret vars, st') =>
      (length (snd vars) + rows_owed (trace st) = rows_owed (trace st'))%nat
      /\ page_requests (trace st')
         = page_requests (trace st) ++ flat_map school_requests schools
      /\ listings (trace st') = listings (trace st)
  | (Raise _, _) => True
  end.
Proof.
  unfold export_loop.
  pose (I := fun (done : list School.t)
                 (vars : gmap string (option Z) * list Row.t) (st' : state W) =>
     (length (snd vars) + rows_owed (trace st) = rows_owed (trace st'))%nat
     /\ page_requests (trace st')
        = page_requests (trace st) ++ flat_map school_requests done
     /\ listings (trace st') = listings (trace st)).
  refine (for_each_rule (fun _ => True) I (fun _ _ => True)
            (export_school origin_id) _ schools []
            ((∅ : gmap string (option Z)), []) st _ _).
  - intros done school [cache rows] st0 _ (Hrows & Hreq & Hlist).
    destruct (School.id school) as [school_id|] eqn:Eid;
      [destruct (School.name school) as [school_name|] eqn:Ename |].
    + destruct (export_school_run origin_id school cache rows st0
                  school_id school_name Eid Ename)
        as (resolution & cache' & travel_time & replies & st' & Hrun & Ht
            & Hlen & _ & Hres & _).
      rewrite Hrun. unfold I. simpl.
      assert (Hquiet : rows_owed resolution = 0%nat
                       /\ page_requests resolution = []
                       /\ listings resolution = []).
      { destruct (cache !! school_id).
        - destruct Hres as [-> _]. easy.
        - destruct Hres as (lookups & stop & r & _ & -> & _).
          cbn [rows_owed rows_due page_requests listings].
          rewrite rows_owed_app, page_requests_app, listings_app.
          rewrite (proj1 (lookup_events_rows _ _)),
            (proj1 (proj2 (lookup_events_rows _ _))),
            (proj2 (proj2 (lookup_events_rows _ _))).
          rewrite (proj1 (travel_events_rows _ _ _ _ _)),
            (proj1 (proj2 (travel_events_rows _ _ _ _ _))),
            (proj2 (proj2 (travel_events_rows _ _ _ _ _))).
          easy. }
      destruct Hquiet as (Hq1 & Hq2 & Hq3).
      rewrite Ht, !rows_owed_app, !page_requests_app, !listings_app.
      rewrite Hq1, Hq2, Hq3, page_events_listings.
      rewrite (page_events_rows school_id school_name
                 (default "" (School.location school))
                 (default "stockholm" (School.municipality school)) travel_time).
      rewrite page_events_requests by exact Hlen.
      rewrite length_app, flat_map_app. simpl. rewrite !app_nil_r.
      unfold school_requests at 2. rewrite Eid. simpl in Hrows.
      split; [lia |]. split; [| exact Hlist].
      rewrite Hreq, <- app_assoc. reflexivity.
    + rewrite export_school_KeyError; [exact Logic.I |].
      unfold has_id_and_name. rewrite Ename. intros [_ [? [=]]].
    + rewrite export_school_KeyError; [exact Logic.I |].
      unfold has_id_and_name. rewrite Eid. intros [[? [=]] _].
  - apply Forall_forall. intros; exact Logic.I.
  - unfold I. simpl. rewrite app_nil_r. easy.
Qed.

End Phases.

Section Run.
Context {W : Type} `{!Upstream W}.

(** The run, phase by phase. *)
Lemma export_phases_run (config : Config.t) (st : state W) :
  exists r1 st1 r2 st2,
    lookup_stop (Config.origin_name config) st = (Ret (stop_of_reply r1), st1)
    /\ trace st1 = trace st ++
         [Get (LocationNameUrl (Config.origin_name config)
                               (ResRobotClient.api_key (resrobot st))) r1]
    /\ trace st2 = trace st1 ++
         [Post RecommendUrl (recommend_data "stockholm" 500) r2]
    /\ get_schools "stockholm" 500 st1 = (schools_of_reply r2, st2)
    /\ export_phases config st
       = if succeeds r1 then
           match schools_of_reply r2 with
           | Ret listing =>
               match export_loop (stop_of_reply r1 ≫= Stop.extId)
                       (limit_schools (Config.school_limit config) listing) st2
               with
               | (Ret vars, st3) => (Ret (snd vars), st3)
               | (Raise e, st3) => (Raise e, st3)
               end
           | Raise e => (Raise e, st2)
           end
         else (Raise (SystemExit 1),
               mkState (world st1) (resrobot st1) (ednia st1) (trace st1)
                       (stderr st1 ++ [origin_error config])).
Proof.
  destruct (resolve_origin_run config st) as (r1 & st1 & Hl & Ht1 & _ & Ho).
  destruct (fetch_schools_run config st1) as (r2 & st2 & Hg & Ht2 & _ & _ & Hf).
  exists r1, st1, r2, st2. repeat (split; [assumption |]).
  unfold export_phases, bind. rewrite Ho.
  destruct (succeeds r1); [| reflexivity].
  rewrite Hf. destruct (schools_of_reply r2) as [listing|e]; [| reflexivity].
  destruct (export_loop _ _ st2) as [[vars|e] st3]; reflexivity.
Qed.

End Run.

(** C1.  In every run of the export that reaches the writer, the number of
    rows is the sum, over the program pages fetched, of the number of study
    paths of the page obtained, a page that is absent or lists no study path
    counting for nothing; and the pages fetched are, in listing order, those
    of every (school, program) pair of the schools processed. *)
Theorem row_count {W : Type} `{!Upstream W} (config : Config.t) (w : W)
    (rows : list Row.t) (st : state W) :
  export_schools config w = (Ret rows, st) ->
  length rows = rows_owed (trace st)
  /\ exists listing,
       listings (trace st) = [Ret listing]
       /\ page_requests (trace st)
          = flat_map school_requests
                     (limit_schools (Config.school_limit config) listing).
Proof.
  unfold export_schools.
  destruct (export_phases_run config (initial_state config w))
    as (r1 & st1 & r2 & st2 & _ & Ht1 & Ht2 & _ & ->).
  destruct (succeeds r1); [| discriminate].
  destruct (schools_of_reply r2) as [listing|e] eqn:E2; [| discriminate].
  pose proof (export_loop_rows (stop_of_reply r1 ≫= Stop.extId)
                (limit_schools (Config.school_limit config) listing) st2) as Hloop.
  destruct (export_loop _ _ st2) as [[vars|e] st3]; [| discriminate].
  intros [= <- <-]. destruct Hloop as (Hrows & Hreq & Hlist).
  rewrite Ht2, Ht1 in Hrows, Hreq, Hlist. simpl in Hrows, Hreq, Hlist.
  split; [lia |]. exists listing. rewrite Hlist, E2. now split.
Qed.

Lemma row_count_witness :
  exists rows st,
    export_schools Demo.config Demo.world = (Ret rows, st)
    /\ length rows = 4%nat
    /\ length rows = rows_owed (trace st)
    /\ page_requests (trace st)
       = [("s1", "NA", "stockholm"); ("s1", "SA", "stockholm");
          ("s1", "TE", "stockholm"); ("s1", "NA", "stockholm")].
Proof.
  destruct (export_schools Demo.config Demo.world) as [o st] eqn:E.
  destruct o as [rows|e]; [| vm_compute in E; discriminate E].
  exists rows, st. split; [reflexivity |].
  destruct (row_count Demo.config Demo.world rows st E) as (Hrows & _).
  vm_compute in E. injection E as <- <-.
  split; [reflexivity |]. split; [exact Hrows | reflexivity].
Defined.

(** ** The cache of travel times *)

Lemma resolved_once_bound (cache : gmap string (option Z)) (events : list event) :
  resolved_once cache events -> resolved_at_most_once events.
Proof.
  intros (H1 & H2 & H3 & H4). repeat split; try assumption.
  intros id. rewrite H1. destruct (present (cache !! id)); lia.
Qed.

Lemma resolution_counts (school_id : string) (origin_id : option string)
    (key : string) (asked : list (string * reply)) (stop : option Stop.t)
    (r : reply) :
  let resolution :=
    Resolving school_id :: lookup_events key asked
    ++ travel_events school_id origin_id key stop r in
  (forall id, count (is_resolving_of id) resolution
              = if String.eqb school_id id then 1%nat else 0%nat)
  /\ (forall id, (count (is_travelling_of id) resolution
                  <= if String.eqb school_id id then 1 else 0)%nat)
  /\ count is_trip_search resolution = count is_travelling resolution
  /\ count is_stop_search resolution = length asked
  /\ count is_resolving resolution = 1%nat.
Proof.
  cbn zeta. repeat split; try intros id;
    cbn [count is_resolving_of is_travelling_of is_trip_search
         is_travelling is_stop_search is_resolving];
    rewrite !count_app, ?lookup_events_searches;
    rewrite ?(lookup_events_count _ key asked) by reflexivity;
    destruct stop; simpl; try destruct (String.eqb school_id id); lia.
Qed.

Section Cache.
Context {W : Type} `{!Upstream W}.

Lemma export_school_counts (origin_id : option string) (school : School.t)
    (cache : gmap string (option Z)) (rows : list Row.t) (st : state W) :
  resolved_once cache (trace st) ->
  match export_school origin_id school (cache, rows) st with
  | (Ret vars, st') => resolved_once (fst vars) (trace st')
  | (Raise _, st') => resolved_at_most_once (trace st')
  end.
Proof.
  intros Hinv.
  destruct (School.id school) as [school_id|] eqn:Eid;
    [destruct (School.name school) as [school_name|] eqn:Ename |].
  - destruct (export_school_run origin_id school cache rows st
                school_id school_name Eid Ename)
      as (resolution & cache' & travel_time & replies & st' & Hrun & Ht
          & _ & _ & Hres & _).
    rewrite Hrun. simpl. rewrite Ht.
    destruct Hinv as (H1 & H2 & H3 & H4).
    assert (Hpages : forall p, (forall u r', p (Get (GetProgramPageUrl school_id u
                (default "stockholm" (School.municipality school))) r') = false) ->
              count p (page_events school_id
                         (default "stockholm" (School.municipality school))
                         (combine (default [] (School.programs school)) replies))
              = 0%nat).
    { intros p Hp. now apply page_events_count. }
    unfold resolved_once. rewrite !count_app.
    rewrite !(Hpages is_trip_search), !(Hpages is_travelling),
      !(Hpages is_stop_search), !(Hpages is_resolving) by reflexivity.
    destruct (cache !! school_id) as [known|] eqn:Ecache.
    + destruct Hres as [-> ->]. repeat split.
      * intros id. rewrite !count_app, Hpages by reflexivity. simpl.
        rewrite H1. lia.
      * intros id. rewrite !count_app, !Hpages by reflexivity. simpl.
        specialize (H2 id). lia.
      * simpl. lia.
      * simpl. lia.
    + destruct Hres as (lookups & stop & r & Hlen & -> & ->).
      destruct (resolution_counts school_id origin_id
                  (ResRobotClient.api_key (resrobot st))
                  (combine (variants school_name
                              (default "" (School.location school))) lookups)
                  stop r) as (R1 & R2 & R3 & R4 & R5).
      cbn zeta in R1, R2, R3, R4, R5.
      assert (Hasked : (length (combine (variants school_name
                          (default "" (School.location school))) lookups) <= 3)%nat).
      { rewrite length_combine. lia. }
      repeat split.
      * intros id. rewrite !count_app, Hpages, R1, H1 by reflexivity.
        destruct (String.eqb_spec school_id id) as [<-|Hne].
        -- rewrite Ecache, lookup_insert_eq. simpl. lia.
        -- rewrite lookup_insert_ne by exact Hne.
           destruct (present (cache !! id)); lia.
      * intros id. rewrite !count_app, !Hpages, R1 by reflexivity.
        specialize (R2 id). specialize (H2 id). lia.
      * rewrite R3, H3. lia.
      * rewrite R4, R5. lia.
  - rewrite export_school_KeyError.
    + now apply resolved_once_bound in Hinv.
    + unfold has_id_and_name. rewrite Ename. intros [_ [? [=]]].
  - rewrite export_school_KeyError.
    + now apply resolved_once_bound in Hinv.
    + unfold has_id_and_name. rewrite Eid. intros [[? [=]] _].
Qed.

Lemma export_loop_counts (origin_id : option string) (schools : list School.t)
    (st : state W) :
  resolved_once ∅ (trace st) ->
  match export_loop origin_id schools st with
  | (Ret vars, st') => resolved_once (fst vars) (trace st')
  | (Raise _, st') => resolved_at_most_once (trace st')
  end.
Proof.
  intros Hinv. unfold export_loop.
  refine (for_each_rule (fun _ => True)
            (fun _ vars st' => resolved_once (fst vars) (trace st'))
            (fun _ st' => resolved_at_most_once (trace st'))
            (export_school origin_id) _ schools []
            ((∅ : gmap string (option Z)), []) st _ _).
  - intros done school [cache rows] st0 _ H0.
    now apply export_school_counts.
  - apply Forall_forall. intros; exact Logic.I.
  - exact Hinv.
Qed.

Lemma export_schools_counts (config : Config.t) (w : W) :
  resolved_at_most_once (trace (snd (export_schools config w))).
Proof.
  unfold export_schools.
  destruct (export_phases_run config (initial_state config w))
    as (r1 & st1 & r2 & st2 & _ & Ht1 & Ht2 & _ & ->).
  simpl in Ht1.
  assert (H1 : resolved_once ∅ (trace st1)).
  { rewrite Ht1. repeat split; simpl; intros; try rewrite lookup_empty; simpl; lia. }
  assert (H2 : resolved_once ∅ (trace st2)).
  { rewrite Ht2, Ht1. repeat split; simpl; intros; try rewrite lookup_empty; simpl; lia. }
  destruct (succeeds r1).
  - destruct (schools_of_reply r2) as [listing|e].
    + pose proof (export_loop_counts (stop_of_reply r1 ≫= Stop.extId)
                    (limit_schools (Config.school_limit config) listing) st2 H2)
        as Hloop.
      destruct (export_loop _ _ st2) as [[vars|e] st3]; simpl.
      * now apply resolved_once_bound in Hloop.
      * exact Hloop.
    + simpl. now apply resolved_once_bound in H2.
  - simpl. now apply resolved_once_bound in H1.
Qed.

(** A resolution that finds no stop stores absent and asks for no trip. *)
Lemma resolve_travel_time_no_stop (origin_id : option string)
    (school_id school_name school_location : string)
    (cache : gmap string (option Z)) (st st1 : state W) (stop : option Stop.t) :
  find_school_stop school_name school_location
    (snd (emit (Resolving school_id) st)) = (Ret stop, st1) ->
  truth Stop.truthy stop = false ->
  resolve_travel_time origin_id school_id school_name school_location cache st
  = (Ret (<[school_id := None]> cache), st1).
Proof.
  intros Hfind Hfalse. unfold resolve_travel_time, bind.
  simpl in Hfind. unfold emit at 1. simpl. rewrite Hfind.
  destruct stop as [s|]; [| reflexivity].
  simpl in Hfalse. now rewrite Hfalse.
Qed.

End Cache.

(** C3.  In every run, whatever its outcome, a school id has at most one
    stop resolution, and at most one travel-time computation, which belongs
    to that resolution; every trip search of the run is one of these, and
    besides the search for the origin every resolution makes at most three
    stop searches.  A resolution that finds no stop asks for no trip and
    stores absent in the cache. *)
Theorem travel_time_cached {W : Type} `{!Upstream W}
    (config : Config.t) (w : W) (origin_id : option string)
    (school_id school_name school_location : string)
    (cache : gmap string (option Z)) (st st1 : state W) (stop : option Stop.t) :
  (let events := trace (snd (export_schools config w)) in
   (forall id, (count (is_resolving_of id) events <= 1)%nat)
   /\ (forall id, (count (is_travelling_of id) events
                   <= count (is_resolving_of id) events)%nat)
   /\ count is_trip_search events = count is_travelling events
   /\ (count is_stop_search events <= 1 + 3 * count is_resolving events)%nat)
  /\ (find_school_stop school_name school_location
        (snd (emit (Resolving school_id) st)) = (Ret stop, st1) ->
      truth Stop.truthy stop = false ->
      resolve_travel_time origin_id school_id school_name school_location
                          cache st
      = (Ret (<[school_id := None]> cache), st1)).
Proof.
  split.
  - exact (export_schools_counts config w).
  - apply resolve_travel_time_no_stop.
Qed.

Lemma travel_time_cached_witness :
  exists st1,
    resolve_travel_time (Some "740020749") "s9" "Nowhere" "" ∅
                        (initial_state Demo.config Demo.world)
    = (Ret (<["s9" := None]> ∅), st1)
    /\ count is_trip_search (trace st1) = 0%nat
    /\ count (is_resolving_of "s1")
             (trace (snd (export_schools Demo.config Demo.world))) = 1%nat.
Proof.
  destruct (find_school_stop "Nowhere" ""
              (snd (emit (Resolving "s9") (initial_state Demo.config Demo.world))))
    as [o st1] eqn:E.
  pose proof E as E'. vm_compute in E'. injection E' as Ho Hst. subst o.
  exists st1. split.
  - apply (travel_time_cached Demo.config Demo.world (Some "740020749")
             "s9" "Nowhere" "" ∅ (initial_state Demo.config Demo.world) st1 None);
      [exact E | reflexivity].
  - rewrite <- Hst. split; vm_compute; reflexivity.
Defined.

(** ** Records without an id or a name *)

Section Records.
Context {W : Type} `{!Upstream W}.

(** The loop completes on records that all have an id and a name, whatever
    else they have and whatever the services reply. *)
Lemma for_each_school_total (origin_id : option string) (schools : list School.t) :
  Forall has_id_and_name schools ->
  forall (vars : gmap string (option Z) * list Row.t) (st : state W),
  exists vars' st',
    for_each schools (export_school origin_id) vars st = (Ret vars', st').
Proof.
  induction 1 as [|school schools [[school_id Eid] [school_name Ename]] _ IH];
    intros [cache rows] st; cbn [for_each].
  - now exists (cache, rows), st.
  - destruct (export_school_run origin_id school cache rows st
                school_id school_name Eid Ename)
      as (resolution & cache' & travel_time & replies & st1 & Hrun & _).
    unfold bind. rewrite Hrun. apply IH.
Qed.

(** The loop stops with [KeyError] at the first record without an id or a
    name. *)
Lemma for_each_school_KeyError (origin_id : option string)
    (before after : list School.t) (school : School.t)
    (vars : gmap string (option Z) * list Row.t) (st : state W) :
  Forall has_id_and_name before ->
  ~ has_id_and_name school ->
  exists st',
    for_each (before ++ school :: after) (export_school origin_id) vars st
    = (Raise (KeyError (if present (School.id school) then "name" else "id")),
       st').
Proof.
  intros Hbefore Hschool. rewrite for_each_app.
  destruct (for_each_school_total origin_id before Hbefore vars st)
    as (vars1 & st1 & ->).
  cbn [for_each]. unfold bind. rewrite export_school_KeyError by exact Hschool.
  now exists st1.
Qed.

Lemma export_phases_loop (config : Config.t) (st st1 st2 : state W)
    (origin_id : option string) (schools : list School.t) :
  resolve_origin config st = (Ret origin_id, st1) ->
  fetch_schools config st1 = (Ret schools, st2) ->
  export_phases config st
  = match export_loop origin_id schools st2 with
    | (Ret vars, st3) => (Ret (snd vars), st3)
    | (Raise e, st3) => (Raise e, st3)
    end.
Proof.
  intros Ho Hf. unfold export_phases, bind. rewrite Ho, Hf.
  now destruct (export_loop origin_id schools st2) as [[vars|e] st3].
Qed.

End Records.

(** C10.  Phase 3 subscripts "id" and "name" in every record: on a listing
    whose records all have both, the loop completes, whatever else the
    records lack ("location", "municipality" and "programs" are read with
    defaults); at the first record that lacks one of the two the loop raises
    a key error for it, which nothing catches: it is the outcome of the
    run. *)
Theorem school_records_need_id_and_name {W : Type} `{!Upstream W}
    (config : Config.t) (origin_id : option string)
    (schools before after : list School.t) (school : School.t)
    (st0 st1 st : state W) :
  resolve_origin config st0 = (Ret origin_id, st1) ->
  fetch_schools config st1 = (Ret schools, st) ->
  (Forall has_id_and_name schools ->
   exists vars st',
     export_loop origin_id schools st = (Ret vars, st')
     /\ export_phases config st0 = (Ret (snd vars), st'))
  /\ (schools = before ++ school :: after ->
      Forall has_id_and_name before ->
      ~ has_id_and_name school ->
      exists st',
        export_loop origin_id schools st
        = (Raise (KeyError (if present (School.id school) then "name" else "id")),
           st')
        /\ export_phases config st0
           = (Raise (KeyError (if present (School.id school) then "name" else "id")),
              st')).
Proof.
  intros Ho Hf. split.
  - intros Hall.
    destruct (for_each_school_total origin_id schools Hall (∅, []) st)
      as (vars & st' & Hloop).
    exists vars, st'. split; [exact Hloop |].
    rewrite (export_phases_loop config st0 st1 st origin_id schools Ho Hf).
    unfold export_loop. now rewrite Hloop.
  - intros -> Hbefore Hschool.
    destruct (for_each_school_KeyError origin_id before after school (∅, []) st
                Hbefore Hschool) as (st' & Hloop).
    exists st'. split; [exact Hloop |].
    rewrite (export_phases_loop config st0 st1 st origin_id _ Ho Hf).
    unfold export_loop. now rewrite Hloop.
Qed.

Lemma school_records_need_id_and_name_witness :
  (let st1 := snd (resolve_origin Demo.config
                     (initial_state Demo.config Demo.world)) in
   let st := snd (fetch_schools Demo.config st1) in
   exists vars st',
     export_loop (Some "740020749") [Demo.kungsholmen; Demo.kungsholmen_again] st
     = (Ret vars, st')
     /\ export_phases Demo.config (initial_state Demo.config Demo.world)
        = (Ret (snd vars), st'))
  /\ (let st1 := snd (resolve_origin Demo.config
                        (initial_state Demo.config Scenario.nameless_world)) in
      let st := snd (fetch_schools Demo.config st1) in
      exists st',
        export_loop (Some "740020749") [Demo.kungsholmen; Scenario.nameless] st
        = (Raise (KeyError "name"), st')
        /\ export_phases Demo.config
             (initial_state Demo.config Scenario.nameless_world)
           = (Raise (KeyError "name"), st')).
Proof.
  split; intros st1 st.
  - refine (proj1 (school_records_need_id_and_name Demo.config
                     (Some "740020749")
                     [Demo.kungsholmen; Demo.kungsholmen_again] [] []
                     Demo.kungsholmen
                     (initial_state Demo.config Demo.world) st1 st _ _) _).
    + vm_compute. reflexivity.
    + vm_compute. reflexivity.
    + repeat constructor; simpl; eauto.
  - refine (proj2 (school_records_need_id_and_name Demo.config
                     (Some "740020749")
                     [Demo.kungsholmen; Scenario.nameless] [Demo.kungsholmen] []
                     Scenario.nameless
                     (initial_state Demo.config Scenario.nameless_world) st1 st
                     _ _) _ _ _).
    + vm_compute. reflexivity.
    + vm_compute. reflexivity.
    + reflexivity.
    + repeat constructor; simpl; eauto.
    + intros [_ [? [=]]].
Defined.

(** ** Failures *)

Section Failures.
Context {W : Type} `{!Upstream W}.






(** An origin that is not found ends the run after the one stop search. *)
Lemma export_schools_origin_not_found (config : Config.t) (w : W)
    (origin_stop : option Stop.t) (st1 : state W) :
  lookup_stop (Config.origin_name config) (initial_state config w)
    = (Ret origin_stop, st1) ->
  truth Stop.truthy origin_stop = false ->
  export_schools config w
    = (Raise (SystemExit 1),
       mkState (world st1) (resrobot st1) (ednia st1) (trace st1)
               (stderr st1 ++ [origin_error config]))
  /\ exists r,
       trace st1 = [Get (LocationNameUrl (Config.origin_name config)
                                         (Config.resrobot_api_key config)) r]
       /\ origin_stop = stop_of_reply r.
Proof.
  intros Hl Hfalse.
  destruct (resolve_origin_run config (initial_state config w))
    as (r & st1' & Hl' & Ht & _ & Ho).
  rewrite Hl in Hl'. injection Hl' as -> <-.
  unfold succeeds in Ho. rewrite Hfalse in Ho. split.
  - unfold export_schools, export_phases, bind. now rewrite Ho.
  - exists r. now split.
Qed.

End Failures.




(** C8.  When the stop search for the configured origin yields no stop,
    the run ends there: it exits with status 1, which is not zero, after
    printing the error line on standard error, and the one stop search is
    all it has requested: no listing, no page, no trip. *)
Theorem origin_not_found {W : Type} `{!Upstream W}
    (config : Config.t) (w : W) (origin_stop : option Stop.t) (st1 : state W) :
  lookup_stop (Config.origin_name config) (initial_state config w)
    = (Ret origin_stop, st1) ->
  truth Stop.truthy origin_stop = false ->
  export_schools config w
    = (Raise (SystemExit 1),
       mkState (world st1) (resrobot st1) (ednia st1) (trace st1)
               (stderr st1 ++ [origin_error config]))
  /\ (exists r,
        trace st1 = [Get (LocationNameUrl (Config.origin_name config)
                                          (Config.resrobot_api_key config)) r]
        /\ origin_stop = stop_of_reply r)
  /\ 1 <> 0.
Proof.
  intros Hl Hfalse.
  destruct (export_schools_origin_not_found config w origin_stop st1 Hl Hfalse)
    as [Hrun Htrace].
  split; [exact Hrun |]. split; [exact Htrace | discriminate].
Qed.

Lemma origin_not_found_witness :
  fst (export_schools Scenario.nowhere Demo.world) = Raise (SystemExit 1)
  /\ trace (snd (export_schools Scenario.nowhere Demo.world))
     = [Get (LocationNameUrl "Nowhere" "KEY")
            (Body (Document.mk (Some []) None None None))]
  /\ stderr (snd (export_schools Scenario.nowhere Demo.world))
     = ["Error: Could not find origin stop 'Nowhere'"].
Proof.
  destruct (lookup_stop "Nowhere" (initial_state Scenario.nowhere Demo.world))
    as [o st1] eqn:E.
  pose proof E as E'. vm_compute in E'. injection E' as Ho Hst. subst o.
  destruct (origin_not_found Scenario.nowhere Demo.world None st1 E eq_refl)
    as (Hrun & _ & _).
  rewrite Hrun. simpl. rewrite <- Hst. repeat split.
Defined.

(** ** The school limit *)






(** * Further properties *)

(** ** load_env: stripping and splitting *)

Lemma lstrip_app_space (p s : string) :
  all_space p = true -> lstrip (p +:+ s) = lstrip s.
Proof.
  induction p as [|c p IH]; intros Hp; [reflexivity |].
  simpl in Hp. apply andb_true_iff in Hp as [Hc Hp].
  rewrite append_String. simpl. rewrite Hc. now apply IH.
Qed.



Lemma rstrip_app_nonspace (s t : string) (c : ascii) :
  is_space c = false ->
  rstrip (s +:+ String c t) = s +:+ String c (rstrip t).
Proof.
  intros Hc. induction s as [|a s IH].
  - rewrite !append_empty_l. simpl. rewrite Hc. now destruct (rstrip t).
  - rewrite !append_String. simpl. rewrite IH.
    destruct s; reflexivity.
Qed.









Lemma lstrip_suffix (s : string) : exists p, s = p +:+ lstrip s.
Proof.
  induction s as [|c s [p IH]]; [now exists "" |]. simpl.
  destruct (is_space c).
  - exists (String c p). now rewrite append_String, <- IH.
  - now exists "".
Qed.

Lemma rstrip_prefix (s : string) : exists q, s = rstrip s +:+ q.
Proof.
  induction s as [|c s [q IH]]; [now exists "" |]. simpl.
  destruct (rstrip s) as [|d r] eqn:E.
  - destruct (is_space c).
    + now exists (String c s).
    + exists s. reflexivity.
  - exists q. now rewrite append_String, <- IH.
Qed.

Lemma contains_strip (needle raw : string) :
  contains needle (strip raw) = true -> contains needle raw = true.
Proof.
  rewrite !contains_spec. intros (before & after & E). unfold strip in E.
  destruct (lstrip_suffix raw) as [p Hp].
  destruct (rstrip_prefix (lstrip raw)) as [q Hq].
  exists (p +:+ before), (after +:+ q).
  rewrite Hp at 1. rewrite Hq at 1. rewrite E.
  now rewrite !append_assoc.
Qed.

(** X2.  A line of the [.env] file assigns nothing when it is blank, when
    its first character after the leading white space is the comment sign,
    or when it has no equals sign. *)
Theorem env_entry_ignored (raw : string) :
  all_space raw = true
  \/ (exists p rest, all_space p = true /\ raw = p +:+ String "#" rest)
  \/ contains "=" raw = false ->
  env_entry raw = None.
Proof.
  intros [Hblank | [(p & rest & Hp & ->) | Hno]]; unfold env_entry.
  - unfold strip.
    replace (lstrip raw) with "".
    + reflexivity.
    + clear -Hblank. induction raw as [|c raw IH]; [reflexivity |].
      simpl in *. apply andb_true_iff in Hblank as [Hc Hraw].
      rewrite Hc. auto.
  - unfold strip. rewrite lstrip_app_space by exact Hp. simpl lstrip.
    change (String "#" rest) with ("" +:+ String "#" rest).
    rewrite rstrip_app_nonspace by reflexivity. rewrite append_empty_l.
    assert (H : String.prefix "#" (String "#" (rstrip rest)) = true)
      by (apply prefix_spec; now exists (rstrip rest)).
    rewrite H. reflexivity.
  - destruct (contains "=" (strip raw)) eqn:E.
    + apply contains_strip in E. congruence.
    + now rewrite andb_false_r.
Qed.

Lemma env_entry_ignored_witness :
  env_entry "   # RESROBOT_API_KEY=abc" = None
  /\ env_entry "export RESROBOT_API_KEY" = None.
Proof.
  split; apply env_entry_ignored.
  - right. left. exists "   ", " RESROBOT_API_KEY=abc". now split.
  - right. right. reflexivity.
Defined.

(** ** load_env: the dictionary *)

Lemma load_env_fold_unassigned (lines : list string) (key : string) :
  (forall l, In l lines -> forall v, env_entry l <> Some (key, v)) ->
  forall env : gmap string string,
    fold_left (fun env raw =>
                 match env_entry raw with
                 | Some (key, value) => <[key := value]> env
                 | None => env
                 end) lines env !! key
    = env !! key.
Proof.
  induction lines as [|l lines IH]; intros Hno env; [reflexivity |].
  simpl. rewrite IH by (intros l' Hl'; apply Hno; now right).
  destruct (env_entry l) as [[k v]|] eqn:E; [| reflexivity].
  apply lookup_insert_ne. intros ->. apply (Hno l (or_introl eq_refl) v E).
Qed.

(** X3.  The value [load_env] holds for a key is the one assigned by the
    last line of the file that assigns the key, whatever the lines before
    it assign. *)
Theorem load_env_last_assignment (before after : list string)
    (line key value : string) :
  env_entry line = Some (key, value) ->
  (forall l, In l after -> forall v, env_entry l <> Some (key, v)) ->
  load_env (Some (before ++ line :: after)) !! key = Some value.
Proof.
  intros Hline Hafter. unfold load_env.
  rewrite fold_left_app. simpl. rewrite Hline.
  rewrite (load_env_fold_unassigned after key Hafter).
  apply lookup_insert_eq.
Qed.

Lemma load_env_last_assignment_witness :
  load_env (Some ["RESROBOT_API_KEY=old"; "# keys"; "RESROBOT_API_KEY = new";
                  "OTHER=1"]) !! "RESROBOT_API_KEY"
  = Some "new".
Proof.
  apply (load_env_last_assignment ["RESROBOT_API_KEY=old"; "# keys"]
           ["OTHER=1"] "RESROBOT_API_KEY = new" "RESROBOT_API_KEY" "new").
  - reflexivity.
  - intros l [<-|[]] v. vm_compute. discriminate.
Defined.

(** X4.  [load_env] holds nothing for a key that no line of the file
    assigns, and nothing at all when there is no file. *)
Theorem load_env_unassigned (lines : list string) (key : string) :
  (forall l, In l lines -> forall v, env_entry l <> Some (key, v)) ->
  load_env (Some lines) !! key = None /\ load_env None !! key = None.
Proof.
  intros Hno. split; [| apply lookup_empty].
  unfold load_env. rewrite (load_env_fold_unassigned lines key Hno).
  apply lookup_empty.
Qed.

Lemma load_env_unassigned_witness :
  load_env (Some ["# RESROBOT_API_KEY=abc"; "OTHER=1"]) !! "RESROBOT_API_KEY"
    = None
  /\ load_env None !! "RESROBOT_API_KEY" = None.
Proof.
  apply load_env_unassigned.
  intros l [<-|[<-|[]]] v; vm_compute; discriminate.
Defined.

(** ** main *)

(** X5.  Without an access key [main] stops before anything else: when
    neither the [.env] file nor the environment holds a value for
    RESROBOT_API_KEY that is not empty, it exits with status 1 after
    printing the error line, and no request is made. *)
Theorem main_missing_key {W : Type} `{!Upstream W} (args : Args.t)
    (env_file : option (list string)) (environ : gmap string string) (w : W) :
  truth nonempty (load_env env_file !! "RESROBOT_API_KEY") = false ->
  truth nonempty (environ !! "RESROBOT_API_KEY") = false ->
  main args env_file environ w
  = Run.mk (Raise (SystemExit 1)) [] [missing_key_error].
Proof.
  intros Hfile Henv. unfold main, str_or. rewrite Hfile, Henv. reflexivity.
Qed.

Lemma main_missing_key_witness :
  main (Args.mk "T-Centralen" "schools.csv" None)
       (Some ["# RESROBOT_API_KEY=abc"; "RESROBOT_API_KEY="])
       {["RESROBOT_API_KEY" := ""]} Demo.world
  = Run.mk (Raise (SystemExit 1)) [] [missing_key_error].
Proof.
  apply main_missing_key; vm_compute; reflexivity.
Defined.

(** X6.  The access key of the [.env] file, when it is not empty, is the
    one [main] runs the export with, whatever the environment holds; the
    key of the environment is used when the file gives none or an empty
    one.  The run is then the export with that key, the arguments and the
    default delays. *)
Theorem main_key_precedence {W : Type} `{!Upstream W} (args : Args.t)
    (env_file : option (list string)) (environ : gmap string string) (w : W)
    (key : string) :
  key <> "" ->
  load_env env_file !! "RESROBOT_API_KEY" = Some key
  \/ (truth nonempty (load_env env_file !! "RESROBOT_API_KEY") = false
      /\ environ !! "RESROBOT_API_KEY" = Some key) ->
  let run := export_schools
               (Config.of_args key (Args.origin args) (Args.output args)
                               (Args.limit args)) w in
  main args env_file environ w
  = Run.mk (fst run) (trace (snd run)) (stderr (snd run)).
Proof.
  intros Hne Hkey run. unfold main, str_or.
  assert (Htrue : nonempty key = true) by (destruct key; [congruence | reflexivity]).
  destruct Hkey as [Hfile | [Hfile Henv]].
  - rewrite Hfile. cbn [truth]. rewrite Htrue. cbn [truth negb]. rewrite Htrue.
    cbn [negb]. change (default "" (Some key)) with key.
    unfold run, Config.of_args. now destruct (export_schools _ w).
  - rewrite Hfile, Henv. cbn [truth negb]. rewrite Htrue.
    cbn [negb]. change (default "" (Some key)) with key.
    unfold run, Config.of_args. now destruct (export_schools _ w).
Qed.

Lemma main_key_precedence_witness :
  main (Args.mk "T-Centralen" "schools.csv" None)
       (Some ["RESROBOT_API_KEY = KEY"]) {["RESROBOT_API_KEY" := "OTHER"]}
       Demo.world
  = Run.mk (fst (export_schools Demo.config Demo.world))
           (trace (snd (export_schools Demo.config Demo.world)))
           (stderr (snd (export_schools Demo.config Demo.world))).
Proof.
  apply (main_key_precedence (Args.mk "T-Centralen" "schools.csv" None)
           (Some ["RESROBOT_API_KEY = KEY"]) {["RESROBOT_API_KEY" := "OTHER"]}
           Demo.world "KEY").
  - discriminate.
  - left. vm_compute. reflexivity.
Defined.

(** ** The transport requests of a run *)

Lemma lookup_events_use (key : string) (origin_id : option string)
    (asked : list (string * reply)) :
  Forall (transport_uses key origin_id) (lookup_events key asked).
Proof. induction asked as [|[q r] asked IH]; simpl; constructor; auto; reflexivity. Qed.

Lemma travel_events_use (school_id key : string) (origin_id : option string)
    (stop : option Stop.t) (r : reply) :
  Forall (transport_uses key origin_id)
         (travel_events school_id origin_id key stop r).
Proof. destruct stop; simpl; repeat constructor. Qed.

Lemma page_events_use (school_id municipality key : string)
    (origin_id : option string) (fetched : list (string * reply)) :
  Forall (transport_uses key origin_id)
         (page_events school_id municipality fetched).
Proof. induction fetched as [|[p r] fetched IH]; simpl; constructor; auto; exact I. Qed.

Lemma export_loop_transport {W : Type} `{!Upstream W}
    (origin_id : option string) (schools : list School.t) (st : state W) :
  exists delta,
    trace (snd (export_loop origin_id schools st)) = trace st ++ delta
    /\ Forall (transport_uses (ResRobotClient.api_key (resrobot st)) origin_id)
              delta.
Proof.
  set (key := ResRobotClient.api_key (resrobot st)).
  pose (Inv := fun st' : state W =>
                 ResRobotClient.api_key (resrobot st') = key
                 /\ exists delta,
                      trace st' = trace st ++ delta
                      /\ Forall (transport_uses key origin_id) delta).
  assert (Hloop :
    match export_loop origin_id schools st with
    | (Ret _, st') => Inv st'
    | (Raise _, st') => Inv st'
    end).
  { unfold export_loop.
    refine (for_each_rule (fun _ => True) (fun _ _ st' => Inv st')
              (fun _ st' => Inv st') (export_school origin_id) _ schools []
              ((∅ : gmap string (option Z)), []) st _ _).
    - intros done school [cache rows] st0 _ (Hk & delta & Hdelta & Huse).
      destruct (School.id school) as [school_id|] eqn:Eid;
        [destruct (School.name school) as [school_name|] eqn:Ename |].
      + destruct (export_school_run origin_id school cache rows st0
                    school_id school_name Eid Ename)
          as (resolution & cache' & travel_time & replies & st' & Hrun & Ht
              & _ & _ & Hres & Hk').
        rewrite Hrun. split; [congruence |].
        eexists. split; [rewrite Ht, Hdelta, <- app_assoc; reflexivity |].
        apply Forall_app. split; [exact Huse |].
        apply Forall_app. split; [| apply page_events_use].
        destruct (cache !! school_id).
        * destruct Hres as [-> _]. constructor.
        * destruct Hres as (lookups & stop & r & _ & -> & _). rewrite Hk.
          constructor; [exact I |].
          apply Forall_app. split;
            [apply lookup_events_use | apply travel_events_use].
      + rewrite export_school_KeyError; [split; eauto |].
        unfold has_id_and_name. rewrite Ename. intros [_ [? [=]]].
      + rewrite export_school_KeyError; [split; eauto |].
        unfold has_id_and_name. rewrite Eid. intros [[? [=]] _].
    - apply Forall_forall. intros; exact I.
    - split; [reflexivity |]. exists []. now rewrite app_nil_r. }
  destruct (export_loop origin_id schools st) as [[vars|e] st']; apply Hloop.
Qed.

(** X7.  Every run begins with the stop search for the configured origin,
    made with the configured access key; every stop search and trip search
    after it is made with that key, and every trip search starts from the
    stop found for the origin. *)
Theorem transport_requests_of_a_run {W : Type} `{!Upstream W}
    (config : Config.t) (w : W) :
  exists r rest,
    trace (snd (export_schools config w))
    = Get (LocationNameUrl (Config.origin_name config)
                           (Config.resrobot_api_key config)) r :: rest
    /\ Forall (transport_uses (Config.resrobot_api_key config)
                              (stop_of_reply r ≫= Stop.extId)) rest.
Proof.
  unfold export_schools.
  destruct (export_phases_run config (initial_state config w))
    as (r1 & st1 & r2 & st2 & Hl & Ht1 & Ht2 & Hg & ->).
  destruct (lookup_stop_run (Config.origin_name config) (initial_state config w))
    as (r1' & st1' & Hl' & _ & _ & Hk1 & _).
  rewrite Hl in Hl'. injection Hl' as _ <-.
  destruct (get_schools_run "stockholm" 500 st1)
    as (r2' & st2' & Hg' & _ & _ & Hr2 & _).
  rewrite Hg in Hg'.
  assert (st2' = st2) by congruence. subst st2'.
  simpl in Ht1, Hk1. exists r1.
  destruct (succeeds r1).
  - destruct (schools_of_reply r2) as [listing|e].
    + destruct (export_loop_transport (stop_of_reply r1 ≫= Stop.extId)
                  (limit_schools (Config.school_limit config) listing) st2)
        as (delta & Hdelta & Huse).
      rewrite Hr2, Hk1 in Huse.
      exists (Post RecommendUrl (recommend_data "stockholm" 500) r2 :: delta).
      split.
      * destruct (export_loop _ _ st2) as [[vars|e] st3]; simpl in *;
          rewrite Hdelta, Ht2, Ht1; reflexivity.
      * constructor; [exact I | exact Huse].
    + exists [Post RecommendUrl (recommend_data "stockholm" 500) r2].
      simpl. rewrite Ht2, Ht1. split; [reflexivity | repeat constructor].
  - exists []. simpl. rewrite Ht1. split; [reflexivity | constructor].
Qed.

(** ** The content and the order of the rows *)

Lemma cores_due_lookup_events (key : string) (asked : list (string * reply)) :
  flat_map cores_due (lookup_events key asked) = [].
Proof. induction asked as [|[q r] asked IH]; simpl; [reflexivity | exact IH]. Qed.

Lemma cores_due_travel_events (school_id key : string)
    (origin_id : option string) (stop : option Stop.t) (r : reply) :
  flat_map cores_due (travel_events school_id origin_id key stop r) = [].
Proof. now destruct stop. Qed.

Lemma cores_due_page_events (school_id school_name school_location municipality : string)
    (travel_time : option Z) (fetched : list (string * reply)) :
  flat_map cores_due (page_events school_id municipality fetched)
  = List.map row_core
      (flat_map (fun pr => rows_of_page school_name school_location (fst pr)
                             travel_time (page_of_reply (snd pr))) fetched).
Proof.
  induction fetched as [|[program r] fetched IH]; simpl; [reflexivity |].
  rewrite map_app, IH. f_equal.
  destruct (page_of_reply r) as [page|]; simpl; [| reflexivity].
  now rewrite map_map.
Qed.

Lemma export_loop_cores {W : Type} `{!Upstream W}
    (origin_id : option string) (schools : list School.t) (st : state W) :
  match export_loop origin_id schools st with
  | (Ret vars, st') =>
      flat_map cores_due (trace st')
      = flat_map cores_due (trace st) ++ List.map row_core (snd vars)
  | (Raise _, _) => True
  end.
Proof.
  unfold export_loop.
  refine (for_each_rule (fun _ => True)
            (fun _ vars st' =>
               flat_map cores_due (trace st')
               = flat_map cores_due (trace st) ++ List.map row_core (snd vars))
            (fun _ _ => True) (export_school origin_id) _ schools []
            ((∅ : gmap string (option Z)), []) st _ _).
  - intros done school [cache rows] st0 _ Hinv. simpl in Hinv.
    destruct (School.id school) as [school_id|] eqn:Eid;
      [destruct (School.name school) as [school_name|] eqn:Ename |].
    + destruct (export_school_run origin_id school cache rows st0
                  school_id school_name Eid Ename)
        as (resolution & cache' & travel_time & replies & st' & Hrun & Ht
            & _ & _ & Hres & _).
      rewrite Hrun. simpl. rewrite Ht, !flat_map_app, Hinv, map_app.
      rewrite (cores_due_page_events school_id school_name
                 (default "" (School.location school))
                 (default "stockholm" (School.municipality school)) travel_time).
      assert (Hquiet : flat_map cores_due resolution = []).
      { destruct (cache !! school_id).
        - now destruct Hres as [-> _].
        - destruct Hres as (lookups & stop & r & _ & -> & _).
          cbn [flat_map cores_due]. rewrite flat_map_app.
          now rewrite cores_due_lookup_events, cores_due_travel_events. }
      rewrite Hquiet. now rewrite <- app_assoc.
    + rewrite export_school_KeyError; [exact I |].
      unfold has_id_and_name. rewrite Ename. intros [_ [? [=]]].
    + rewrite export_school_KeyError; [exact I |].
      unfold has_id_and_name. rewrite Eid. intros [[? [=]] _].
  - apply Forall_forall. intros; exact I.
  - simpl. now rewrite app_nil_r.
Qed.

(** X8.  In a run that reaches the writer the rows are, in the order of
    the page fetches of the trace, one per study path of every page
    obtained, in the order of the page; each carries the program code that
    was asked for, the statistics of the page and the name and figures of
    its study path as they came, a missing number staying absent and a
    missing name becoming the empty string. *)
Theorem rows_follow_pages {W : Type} `{!Upstream W} (config : Config.t) (w : W)
    (rows : list Row.t) (st : state W) :
  export_schools config w = (Ret rows, st) ->
  List.map row_core rows = flat_map cores_due (trace st).
Proof.
  unfold export_schools.
  destruct (export_phases_run config (initial_state config w))
    as (r1 & st1 & r2 & st2 & _ & Ht1 & Ht2 & _ & ->).
  destruct (succeeds r1); [| discriminate].
  destruct (schools_of_reply r2) as [listing|e]; [| discriminate].
  pose proof (export_loop_cores (stop_of_reply r1 ≫= Stop.extId)
                (limit_schools (Config.school_limit config) listing) st2) as Hloop.
  destruct (export_loop _ _ st2) as [[vars|e] st3]; [| discriminate].
  intros [= <- <-]. rewrite Hloop, Ht2, Ht1. reflexivity.
Qed.

Lemma rows_follow_pages_witness :
  exists rows st,
    export_schools Demo.config Demo.world = (Ret rows, st)
    /\ List.map (fun row => (Row.program row, Row.studyPath_name row)) rows
       = [("NA", "NANAT"); ("NA", "NASAM"); ("NA", "NANAT"); ("NA", "NASAM")]
    /\ List.map row_core rows = flat_map cores_due (trace st).
Proof.
  destruct (export_schools Demo.config Demo.world) as [o st] eqn:E.
  destruct o as [rows|e]; [| vm_compute in E; discriminate E].
  exists rows, st. split; [reflexivity |].
  split; [| exact (rows_follow_pages Demo.config Demo.world rows st E)].
  vm_compute in E. injection E as <- _. reflexivity.
Defined.

(** ** The cache and the rows *)

Lemma rows_of_school_fields (school_name school_location : string)
    (travel_time : option Z) (fetched : list (string * reply)) (row : Row.t) :
  In row (flat_map (fun pr => rows_of_page school_name school_location (fst pr)
                                travel_time (page_of_reply (snd pr))) fetched) ->
  Row.school_name row = school_name
  /\ Row.school_location row = school_location
  /\ Row.travel_time_minutes row = travel_time.
Proof.
  intros Hin. apply in_flat_map in Hin as ([program r] & _ & Hin).
  unfold rows_of_page in Hin. simpl in Hin.
  destruct (page_of_reply r) as [page|]; [| contradiction].
  apply in_map_iff in Hin as (path & <- & _). now repeat split.
Qed.

Lemma export_loop_cache {W : Type} `{!Upstream W}
    (origin_id : option string) (schools : list School.t) (st : state W) :
  match export_loop origin_id schools st with
  | (Ret vars, st') =>
      (forall row, In row (snd vars) -> row_of_school (fst vars) schools row)
      /\ (forall id, is_Some (fst vars !! id) <-> listed schools id)
  | (Raise _, _) => True
  end.
Proof.
  unfold export_loop.
  refine (for_each_rule (fun _ => True)
            (fun done vars _ =>
               (forall row, In row (snd vars) -> row_of_school (fst vars) done row)
               /\ (forall id, is_Some (fst vars !! id) <-> listed done id))
            (fun _ _ => True) (export_school origin_id) _ schools []
            ((∅ : gmap string (option Z)), []) st _ _).
  - intros done school [cache rows] st0 _ [Hrows Hdom]. simpl in Hrows, Hdom.
    destruct (School.id school) as [school_id|] eqn:Eid;
      [destruct (School.name school) as [school_name|] eqn:Ename |].
    + destruct (export_school_run origin_id school cache rows st0
                  school_id school_name Eid Ename)
        as (resolution & cache' & travel_time & replies & st' & Hrun & _
            & _ & Hnew & Hres & _).
      rewrite Hrun. simpl.
      assert (Hkeep : forall id v, cache !! id = Some v -> cache' !! id = Some v).
      { intros id v Hv. destruct (cache !! school_id) eqn:Ec.
        - destruct Hres as [_ ->]. exact Hv.
        - destruct Hres as (lookups & stop & r & _ & _ & ->).
          rewrite lookup_insert_ne; [exact Hv | congruence]. }
      assert (Hdom' : forall id, is_Some (cache' !! id)
                                 <-> is_Some (cache !! id) \/ id = school_id).
      { intros id. destruct (cache !! school_id) eqn:Ec.
        - destruct Hres as [_ ->]. split; [auto |].
          intros [H | ->]; [exact H | rewrite Ec; eauto].
        - destruct Hres as (lookups & stop & r & _ & _ & ->).
          destruct (decide (school_id = id)) as [<-|Hne].
          + rewrite lookup_insert_eq. split; eauto.
          + rewrite lookup_insert_ne by exact Hne. split; [auto |].
            intros [H | ->]; [exact H | congruence]. }
      split.
      * intros row Hin. apply in_app_or in Hin as [Hold|Hnew'].
        -- destruct (Hrows row Hold) as (s & id & Hs & Hid & Hn & Hl & Hc).
           exists s, id. repeat split; try assumption.
           ++ apply in_or_app. now left.
           ++ now apply Hkeep.
        -- apply rows_of_school_fields in Hnew' as (Hn & Hl & Ht).
           exists school, school_id. repeat split.
           ++ apply in_or_app. right. now left.
           ++ exact Eid.
           ++ now rewrite Hn.
           ++ exact Hl.
           ++ now rewrite Ht.
      * intros id. rewrite Hdom', Hdom. unfold listed. split.
        -- intros [(s & Hs & Hid) | ->].
           ++ exists s. split; [apply in_or_app; now left | exact Hid].
           ++ exists school. split; [apply in_or_app; right; now left | exact Eid].
        -- intros (s & Hs & Hid). apply in_app_or in Hs as [Hs|[<-|[]]].
           ++ left. now exists s.
           ++ right. congruence.
    + rewrite export_school_KeyError; [exact I |].
      unfold has_id_and_name. rewrite Ename. intros [_ [? [=]]].
    + rewrite export_school_KeyError; [exact I |].
      unfold has_id_and_name. rewrite Eid. intros [[? [=]] _].
  - apply Forall_forall. intros; exact I.
  - simpl. split; [intros row [] |].
    intros id. rewrite lookup_empty. split.
    + intros [? [=]].
    + intros (s & [] & _).
Qed.

(** X9.  In a run that reaches the writer the travel time of a row is a
    function of the school id: there is one table of travel times by id
    such that every row belongs to a listed school, whose name and
    district (empty when missing) it carries, and has the travel time of
    that school's id in the table, however often the id recurs in the
    listing. *)
Theorem travel_time_by_school_id {W : Type} `{!Upstream W}
    (config : Config.t) (w : W) (rows : list Row.t) (st : state W) :
  export_schools config w = (Ret rows, st) ->
  exists listing times,
    listings (trace st) = [Ret listing]
    /\ forall row, In row rows ->
         row_of_school times
           (limit_schools (Config.school_limit config) listing) row.
Proof.
  unfold export_schools.
  destruct (export_phases_run config (initial_state config w))
    as (r1 & st1 & r2 & st2 & _ & Ht1 & Ht2 & _ & ->).
  destruct (succeeds r1); [| discriminate].
  destruct (schools_of_reply r2) as [listing|e] eqn:E2; [| discriminate].
  pose proof (export_loop_cache (stop_of_reply r1 ≫= Stop.extId)
                (limit_schools (Config.school_limit config) listing) st2) as Hc.
  pose proof (export_loop_rows (stop_of_reply r1 ≫= Stop.extId)
                (limit_schools (Config.school_limit config) listing) st2) as Hr.
  destruct (export_loop _ _ st2) as [[[cache rows']|e] st3]; [| discriminate].
  intros [= <- <-]. destruct Hc as [Hrows _]. destruct Hr as (_ & _ & Hl).
  exists listing, cache. split; [| exact Hrows].
  rewrite Hl, Ht2, Ht1. simpl. now rewrite E2.
Qed.

Lemma travel_time_by_school_id_witness :
  exists rows st listing times,
    export_schools Demo.config Demo.world = (Ret rows, st)
    /\ listings (trace st) = [Ret listing]
    /\ forall row, In row rows ->
         row_of_school times
           (limit_schools (Config.school_limit Demo.config) listing) row.
Proof.
  destruct (export_schools Demo.config Demo.world) as [o st] eqn:E.
  destruct o as [rows|e]; [| vm_compute in E; discriminate E].
  destruct (travel_time_by_school_id Demo.config Demo.world rows st E)
    as (listing & times & Hl & Hrows).
  exists rows, st, listing, times.
  split; [reflexivity |]. split; [exact Hl | exact Hrows].
Defined.

(** X10.  In a run that reaches the writer every school id of the schools
    processed has had exactly one stop resolution, and an id that is not
    among them has had none. *)
Theorem one_resolution_per_listed_id {W : Type} `{!Upstream W}
    (config : Config.t) (w : W) (rows : list Row.t) (st : state W) :
  export_schools config w = (Ret rows, st) ->
  exists listing,
    listings (trace st) = [Ret listing]
    /\ forall id,
         (listed (limit_schools (Config.school_limit config) listing) id ->
          count (is_resolving_of id) (trace st) = 1%nat)
         /\ (~ listed (limit_schools (Config.school_limit config) listing) id ->
             count (is_resolving_of id) (trace st) = 0%nat).
Proof.
  unfold export_schools.
  destruct (export_phases_run config (initial_state config w))
    as (r1 & st1 & r2 & st2 & _ & Ht1 & Ht2 & _ & ->).
  destruct (succeeds r1); [| discriminate].
  destruct (schools_of_reply r2) as [listing|e] eqn:E2; [| discriminate].
  assert (H2 : resolved_once ∅ (trace st2)).
  { rewrite Ht2, Ht1.
    repeat split; simpl; intros; try rewrite lookup_empty; simpl; lia. }
  pose proof (export_loop_cache (stop_of_reply r1 ≫= Stop.extId)
                (limit_schools (Config.school_limit config) listing) st2) as Hc.
  pose proof (export_loop_rows (stop_of_reply r1 ≫= Stop.extId)
                (limit_schools (Config.school_limit config) listing) st2) as Hr.
  pose proof (export_loop_counts (stop_of_reply r1 ≫= Stop.extId)
                (limit_schools (Config.school_limit config) listing) st2 H2) as Hn.
  destruct (export_loop _ _ st2) as [[[cache rows']|e] st3]; [| discriminate].
  intros [= <- <-]. destruct Hc as [_ Hdom]. destruct Hr as (_ & _ & Hl).
  destruct Hn as (Hcount & _). simpl in Hdom, Hcount.
  exists listing. split; [rewrite Hl, Ht2, Ht1; simpl; now rewrite E2 |].
  intros id. rewrite Hcount. split; intros Hid.
  - apply Hdom in Hid as [v ->]. reflexivity.
  - destruct (cache !! id) as [v|] eqn:Ev; [| reflexivity].
    exfalso. apply Hid, Hdom. now exists v.
Qed.

Lemma one_resolution_per_listed_id_witness :
  exists rows st,
    export_schools Demo.config Demo.world = (Ret rows, st)
    /\ count (is_resolving_of "s1") (trace st) = 1%nat
    /\ count (is_resolving_of "s2") (trace st) = 0%nat.
Proof.
  destruct (export_schools Demo.config Demo.world) as [o st] eqn:E.
  destruct o as [rows|e]; [| vm_compute in E; discriminate E].
  destruct (one_resolution_per_listed_id Demo.config Demo.world rows st E)
    as (listing & Hl & Hcount).
  exists rows, st. split; [reflexivity |].
  vm_compute in E. injection E as _ <-. split; reflexivity.
Defined.

(** ** Warnings *)

Section Preserves.
Context {W : Type} `{!Upstream W}.
Variable P : state W -> Prop.






End Preserves.

Section Warnings.
Context {W : Type} `{!Upstream W}.











End Warnings.


(** ** The limiters of the two clients *)

(** X12.  With a clock that does not go back and a sleep that lasts, every
    method of the transport client moves the last-request time of that
    client forward by its interval at least and leaves the school client as
    it was, and every method of the school client does the same the other
    way round: the two limiters do not delay each other. *)
Theorem requests_are_throttled {W : Type} `{!Upstream W}
    (query school_id program_code municipality : string)
    (origin_id dest_id : option string) (limit : Z) (st : state W) :
  clock_steady (W := W) -> sleep_lasts (W := W) ->
  let moved_resrobot (st' : state W) :=
    (ResRobotClient.last_request (resrobot st) + ResRobotClient.delay (resrobot st)
     <= ResRobotClient.last_request (resrobot st'))%Q
    /\ ednia st' = ednia st in
  let moved_ednia (st' : state W) :=
    (EdniaClient.last_request (ednia st) + EdniaClient.delay (ednia st)
     <= EdniaClient.last_request (ednia st'))%Q
    /\ resrobot st' = resrobot st in
  moved_resrobot (snd (lookup_stop query st))
  /\ moved_resrobot (snd (get_travel_time origin_id dest_id st))
  /\ moved_ednia (snd (get_schools municipality limit st))
  /\ moved_ednia (snd (get_program_page school_id program_code municipality st)).
Proof.
  intros steady lasts moved_resrobot moved_ednia.
  pose proof (throttle_gap steady lasts (ResRobotClient.delay (resrobot st))
                (ResRobotClient.last_request (resrobot st)) (world st)) as Hr.
  pose proof (throttle_gap steady lasts (EdniaClient.delay (ednia st))
                (EdniaClient.last_request (ednia st)) (world st)) as He.
  unfold moved_resrobot, moved_ednia.
  repeat split.
  - unfold lookup_stop, bind, ResRobotClient_rate_limit, gets, try_except,
      http_get, eprint, ret.
    destruct (throttle _ _ _) as [t w1]. simpl in *.
    destruct (get _ w1) as [[reason|data] w2]; exact Hr.
  - unfold lookup_stop, bind, ResRobotClient_rate_limit, gets, try_except,
      http_get, eprint, ret.
    destruct (throttle _ _ _) as [t w1]. simpl.
    now destruct (get _ w1) as [[reason|data] w2].
  - unfold get_travel_time, bind, ResRobotClient_rate_limit, gets, try_except,
      http_get, eprint, ret.
    destruct (throttle _ _ _) as [t w1]. simpl in *.
    destruct (get _ w1) as [[reason|data] w2]; simpl; [exact Hr |].
    destruct (default [] (Document.Trip data)); exact Hr.
  - unfold get_travel_time, bind, ResRobotClient_rate_limit, gets, try_except,
      http_get, eprint, ret.
    destruct (throttle _ _ _) as [t w1]. simpl.
    destruct (get _ w1) as [[reason|data] w2]; simpl; [reflexivity |].
    now destruct (default [] (Document.Trip data)).
  - unfold get_schools, bind, EdniaClient_rate_limit, http_post, ret.
    destruct (throttle (EdniaClient.delay _) _ _) as [t w1]. simpl in *.
    destruct (post _ _ w1) as [[reason|data] w2]; exact He.
  - unfold get_schools, bind, EdniaClient_rate_limit, http_post, ret.
    destruct (throttle (EdniaClient.delay _) _ _) as [t w1]. simpl.
    now destruct (post _ _ w1) as [[reason|data] w2].
  - unfold get_program_page, bind, EdniaClient_rate_limit, try_except,
      http_get, eprint, ret.
    destruct (throttle (EdniaClient.delay _) _ _) as [t w1]. simpl in *.
    destruct (get _ w1) as [[reason|data] w2]; exact He.
  - unfold get_program_page, bind, EdniaClient_rate_limit, try_except,
      http_get, eprint, ret.
    destruct (throttle (EdniaClient.delay _) _ _) as [t w1]. simpl.
    now destruct (get _ w1) as [[reason|data] w2].
Qed.

Lemma requests_are_throttled_witness :
  let st := initial_state Demo.config Demo.world in
  (0 + (3 # 2) <= ResRobotClient.last_request
                    (resrobot (snd (lookup_stop "T-Centralen" st))))%Q
  /\ ednia (snd (lookup_stop "T-Centralen" st)) = ednia st.
Proof.
  intros st.
  exact (proj1 (requests_are_throttled "T-Centralen" "" "" "" None None 0 st
                  script_clock_steady script_sleep_lasts)).
Defined.

(** ** A negative limit *)

(** X13.  A negative school limit does not bound the number of schools: it
    drops that many schools from the end of the listing (all of them when
    the listing is shorter). *)
Theorem school_limit_negative (n : Z) (schools : list School.t) :
  n < 0 ->
  limit_schools (Some n) schools
  = firstn (length schools - Z.to_nat (- n)) schools.
Proof.
  intros Hn. unfold limit_schools, slice_to.
  destruct (Z.eqb_spec n 0) as [->|_]; [lia |].
  destruct (Z.leb_spec 0 n) as [|_]; [lia |].
  f_equal. lia.
Qed.

Lemma school_limit_negative_witness :
  limit_schools (Some (-1)) [Demo.kungsholmen; Demo.kungsholmen_again]
  = [Demo.kungsholmen].
Proof.
  apply (school_limit_negative (-1) [Demo.kungsholmen; Demo.kungsholmen_again]).
  lia.
Defined.

(** ** parse_duration: what follows the token, and the sign *)




Lemma int_of_digits_from_nonneg (ds : string) :
  all_digits ds = true -> forall acc, 0 <= acc -> 0 <= int_of_digits_from acc ds.
Proof.
  induction ds as [|c ds IH]; intros Hds acc Hacc; simpl; [exact Hacc |].
  simpl in Hds. apply andb_true_iff in Hds as [Hc Hds].
  apply IH; [exact Hds |].
  unfold is_digit in Hc. apply andb_true_iff in Hc as [Hlo _].
  apply N.leb_le in Hlo. unfold digit_value. lia.
Qed.

Lemma span_digits_digits (s : string) : all_digits (fst (span_digits s)) = true.
Proof.
  induction s as [|c s IH]; simpl; [reflexivity |].
  destruct (is_digit c) eqn:Hc; [| reflexivity].
  destruct (span_digits s) as [ds rest]. simpl in *. now rewrite Hc, IH.
Qed.

Lemma unit_group_digits (unit : ascii) (s ds rest : string) :
  unit_group unit s = Some (ds, rest) -> all_digits ds = true.
Proof.
  unfold unit_group. pose proof (span_digits_digits s) as Hs.
  destruct (span_digits s) as [ds' rest']. simpl in Hs.
  destruct ds' as [|d ds']; [discriminate |].
  destruct rest' as [|c rest']; [discriminate |].
  destruct (Ascii.eqb c unit); [| discriminate].
  now intros [= <- _].
Qed.

Lemma parse_duration_sign (duration : option string) (minutes : Z) :
  parse_duration duration = Some minutes -> 0 <= minutes.
Proof.
  unfold parse_duration. destruct duration as [[|c d]|]; try discriminate.
  unfold match_duration.
  destruct (strip_prefix "PT" (String c d)) as [after_pt|]; [| discriminate].
  assert (Hval : forall u t,
            0 <= from_option int_of_digits 0
                   match unit_group u t with
                   | Some (ds, _) => Some ds
                   | None => None
                   end).
  { intros u t. destruct (unit_group u t) as [[ds rest]|] eqn:E; simpl; [| lia].
    apply int_of_digits_from_nonneg; [| lia].
    now apply (unit_group_digits u t ds rest). }
  destruct (unit_group "H" after_pt) as [[hs after_h]|] eqn:Eh.
  - intros [= <-]. pose proof (Hval "H"%char after_pt) as H1.
    rewrite Eh in H1. pose proof (Hval "M"%char after_h) as H2.
    simpl in H1. lia.
  - intros [= <-]. pose proof (Hval "M"%char after_pt) as H2. simpl. lia.
Qed.

(** X15.  [parse_duration] never returns a negative number of minutes. *)
Theorem parse_duration_nonnegative (duration : option string) (minutes : Z) :
  parse_duration duration = Some minutes -> 0 <= minutes.
Proof. apply parse_duration_sign. Qed.

Lemma parse_duration_nonnegative_witness : 0 <= 75.
Proof.
  apply (parse_duration_nonnegative (Some "PT1H15M") 75). reflexivity.
Defined.

(** ** select_stop: where the stop comes from *)




(** ** The sign of the travel times *)

Lemma export_loop_cache_sign {W : Type} `{!Upstream W}
    (origin_id : option string) (schools : list School.t) (st : state W) :
  match export_loop origin_id schools st with
  | (Ret vars, _) =>
      forall id minutes, fst vars !! id = Some (Some minutes) -> 0 <= minutes
  | (Raise _, _) => True
  end.
Proof.
  unfold export_loop.
  refine (for_each_rule (fun _ => True)
            (fun _ vars _ =>
               forall id minutes,
                 fst vars !! id = Some (Some minutes) -> 0 <= minutes)
            (fun _ _ => True) (export_school origin_id) _ schools []
            ((∅ : gmap string (option Z)), []) st _ _).
  - intros done school [cache rows] st0 _ Hinv. simpl in Hinv.
    destruct (School.id school) as [school_id|] eqn:Eid;
      [destruct (School.name school) as [school_name|] eqn:Ename |].
    + destruct (export_school_run origin_id school cache rows st0
                  school_id school_name Eid Ename)
        as (resolution & cache' & travel_time & replies & st' & Hrun & _
            & _ & _ & Hres & _).
      rewrite Hrun. simpl. intros id minutes Hid.
      destruct (cache !! school_id) eqn:Ec.
      * destruct Hres as [_ ->]. now apply (Hinv id).
      * destruct Hres as (lookups & stop & r & _ & _ & ->).
        destruct (decide (school_id = id)) as [<-|Hne].
        -- rewrite lookup_insert_eq in Hid. injection Hid as Hid.
           destruct stop as [s|]; [| discriminate Hid]. simpl in Hid.
           destruct r as [reason|data]; [discriminate Hid |]. simpl in Hid.
           destruct (default [] (Document.Trip data)) as [|trip0 trips];
             [discriminate Hid |].
           now apply (parse_duration_sign (TripItem.duration trip0)).
        -- rewrite lookup_insert_ne in Hid by exact Hne. now apply (Hinv id).
    + rewrite export_school_KeyError; [exact I |].
      unfold has_id_and_name. rewrite Ename. intros [_ [? [=]]].
    + rewrite export_school_KeyError; [exact I |].
      unfold has_id_and_name. rewrite Eid. intros [[? [=]] _].
  - apply Forall_forall. intros; exact I.
  - simpl. intros id minutes. rewrite lookup_empty. discriminate.
Qed.

(** X17.  No row of the table has a negative travel time: the column is
    empty or holds a number of minutes that is zero or more. *)
Theorem travel_times_nonnegative {W : Type} `{!Upstream W}
    (config : Config.t) (w : W) (rows : list Row.t) (st : state W)
    (row : Row.t) (minutes : Z) :
  export_schools config w = (Ret rows, st) ->
  In row rows ->
  Row.travel_time_minutes row = Some minutes ->
  0 <= minutes.
Proof.
  unfold export_schools.
  destruct (export_phases_run config (initial_state config w))
    as (r1 & st1 & r2 & st2 & _ & _ & _ & _ & ->).
  destruct (succeeds r1); [| discriminate].
  destruct (schools_of_reply r2) as [listing|e]; [| discriminate].
  pose proof (export_loop_cache (stop_of_reply r1 ≫= Stop.extId)
                (limit_schools (Config.school_limit config) listing) st2) as Hc.
  pose proof (export_loop_cache_sign (stop_of_reply r1 ≫= Stop.extId)
                (limit_schools (Config.school_limit config) listing) st2) as Hs.
  destruct (export_loop _ _ st2) as [[[cache rows']|e] st3]; [| discriminate].
  intros [= <- <-] Hin Hrow. destruct Hc as [Hrows _]. simpl in Hrows, Hs.
  destruct (Hrows row Hin) as (school & id & _ & _ & _ & _ & Hid).
  rewrite Hrow in Hid. now apply (Hs id).
Qed.

Lemma travel_times_nonnegative_witness : 0 <= 65.
Proof.
  destruct (export_schools Demo.config Demo.world) as [o st] eqn:E.
  destruct o as [rows|e]; [| vm_compute in E; discriminate E].
  pose proof E as E'. vm_compute in E'. injection E' as Hrows _.
  destruct rows as [|row rows]; [discriminate Hrows |].
  injection Hrows as Hrow _.
  apply (travel_times_nonnegative Demo.config Demo.world (row :: rows) st row 65 E).
  - left. reflexivity.
  - rewrite <- Hrow. reflexivity.
Defined.
